(** * siamesexml: loss functions and samplers

    A shallow embedding of [deepxml/libs/loss.py] and
    [siamesexml/libs/sampling.py].

    - Python objects are their attribute dictionaries ([self.__dict__]), finite
      maps from attribute names to dynamically typed values.
    - Exceptions are explicit: every operation that can raise returns a
      [result].
    - Tensors hold real numbers; floating-point rounding, [inf] and the
      broadcasting of unequal shapes are outside the model (an operation on
      two tensors of unequal shape raises), while the NaN that the mean of an
      empty tensor produces is kept.
    - The samplers run against a store of objects, a file system and the
      state of numpy's global random generator. *)

From Stdlib Require Import Reals Lra Lia ZArith.
From stdpp Require Import base option gmap strings list.

Set Warnings "-register-all".

(** ** Python values, exceptions and calls *)

Module Py.

(** The library callable that the [functools.partial] of a [BaseSampler]
    wraps. *)
Inductive callee :=
  | np_random_randint.

Inductive value : Type :=
  | VNone
  | VBool (b : bool)
  | VInt (z : Z)
  | VFloat (r : R)
  | VStr (s : string)
  | VArray (xs : list R)
  | VRef (l : nat)
  | VDict (d : gmap string value)
  | VPartial (f : callee) (kw : gmap string value)
  | VGlobal (name : string).

Inductive exn :=
  | TypeError
  | AttributeError (name : string)
  | NameError (name : string)
  | IndexError
  | ValueError
  | RuntimeError
  | FileNotFoundError (name : string).

Inductive result (A : Type) : Type :=
  | Ok (a : A)
  | Raise (e : exn).
Arguments Ok {A} a.
Arguments Raise {A} e.

Definition bind {A B} (c : result A) (k : A -> result B) : result B :=
  match c with
  | Ok a => k a
  | Raise e => Raise e
  end.

Definition is_ok {A} (c : result A) : Prop := exists a, c = Ok a.

(** [self.name]: an attribute that was never assigned raises. *)
Definition getattr (self : gmap string value) (name : string) : result value :=
  match self !! name with
  | Some v => Ok v
  | None => Raise (AttributeError name)
  end.

(** [self.name = v] *)
Definition setattr (self : gmap string value) (name : string) (v : value)
  : gmap string value :=
  <[name := v]> self.

(** [v == 'literal']: a value that is not a string differs from every
    string. *)
Definition eq_str (v : value) (s : string) : bool :=
  match v with
  | VStr s' => bool_decide (s' = s)
  | _ => false
  end.

(** A Python number used in tensor arithmetic. *)
Definition as_real (v : value) : result R :=
  match v with
  | VFloat r => Ok r
  | VInt z => Ok (IZR z)
  | VBool b => Ok (if b then 1%R else 0%R)
  | _ => Raise TypeError
  end.

(** *** Binding the arguments of a call

    A signature lists the parameters after [self], each with its default if
    it has one.  Positional arguments fill the parameters from the left,
    keyword arguments by name; too many positional arguments, an unknown or
    repeated keyword and a parameter left without a value raise
    [TypeError]. *)

Definition signature := list (string * option value).

Fixpoint bind_positional (params : signature) (args : list value)
  {struct args} : result (gmap string value * signature) :=
  match args, params with
  | [], _ => Ok (∅, params)
  | _ :: _, [] => Raise TypeError
  | a :: args', (p, _) :: params' =>
      match bind_positional params' args' with
      | Ok (env, rest) => Ok (<[p := a]> env, rest)
      | Raise e => Raise e
      end
  end.

Fixpoint bind_keywords (rest : signature) (kwargs : list (string * value))
  (env : gmap string value) : result (gmap string value) :=
  match kwargs with
  | [] => Ok env
  | (k, v) :: kwargs' =>
      match env !! k with
      | Some _ => Raise TypeError
      | None =>
          if bool_decide (k ∈ rest.*1)
          then bind_keywords rest kwargs' (<[k := v]> env)
          else Raise TypeError
      end
  end.

Fixpoint bind_defaults (rest : signature) (env : gmap string value)
  : result (gmap string value) :=
  match rest with
  | [] => Ok env
  | (p, d) :: rest' =>
      match env !! p, d with
      | Some _, _ => bind_defaults rest' env
      | None, Some v => bind_defaults rest' (<[p := v]> env)
      | None, None => Raise TypeError
      end
  end.

Definition bind_args (params : signature) (args : list value)
  (kwargs : list (string * value)) : result (gmap string value) :=
  match bind_positional params args with
  | Ok (env, rest) => bind (bind_keywords rest kwargs env) (bind_defaults rest)
  | Raise e => Raise e
  end.

(** The range of a signed 64-bit integer, that of numpy's [int64] and of a
    tensor index. *)
Definition int64_min : Z := (- 2 ^ 63)%Z.
Definition int64_max : Z := (2 ^ 63 - 1)%Z.

(** A parameter of a call whose arguments were bound. *)
Definition param (env : gmap string value) (name : string) : value :=
  default VNone (env !! name).

End Py.
Import Py.

#[global] Instance result_bind : MBind result := fun A B k c => bind c k.
#[global] Instance result_ret : MRet result := @Ok.

(** ** Tensors *)

Module Torch.

(** A two-dimensional tensor of shape [length rows] x [ncols], stored by
    rows.  The width is kept apart so that an empty batch still has one. *)
Record tensor (A : Type) : Type := Tensor {
  ncols : nat;
  rows : list (list A)
}.
Arguments Tensor {A} ncols rows.
Arguments ncols {A} t.
Arguments rows {A} t.

Definition nrows {A} (t : tensor A) : nat := length (rows t).
Definition numel {A} (t : tensor A) : nat := nrows t * ncols t.

(** Every row has the width of the tensor. *)
Definition wf {A} (t : tensor A) : Prop :=
  Forall (fun r => length r = ncols t) (rows t).

Definition same_shape {A B} (a : tensor A) (b : tensor B) : bool :=
  bool_decide (nrows a = nrows b) && bool_decide (ncols a = ncols b).

(** [t[i, j]] *)
Definition tget {A} (t : tensor A) (i j : nat) : option A :=
  r ← rows t !! i; r !! j.

(** The result of a forward pass: a matrix, a zero-dimensional tensor, or
    the NaN that the mean of no element is. *)
Inductive tvalue :=
  | Mat (t : tensor R)
  | Scalar (r : R)
  | NaN.

Definition tmap {A B} (f : A -> B) (t : tensor A) : tensor B :=
  Tensor (ncols t) (fmap (fmap f : list A -> list B) (rows t)).

(** An elementwise operation on two tensors of one shape.  The library
    also accepts some unequal shapes, by broadcasting a dimension of size
    1; that is not modelled: here every pair of unequal shapes raises, so
    what is proved below about a call that returns is about a call on
    equal shapes, and nothing is concluded from a raise on shapes that the
    library would broadcast. *)
Definition tmap2 {A B C} (f : A -> B -> C) (a : tensor A) (b : tensor B)
  : result (tensor C) :=
  if same_shape a b
  then Ok (Tensor (ncols a) (zip_with (zip_with f) (rows a) (rows b)))
  else Raise RuntimeError.

Definition vsum (xs : list R) : R := fold_right Rplus 0%R xs.

(** [t.sum()] *)
Definition tsum (t : tensor R) : R := vsum (map vsum (rows t)).

(** [t.mean()] *)
Definition tmean (t : tensor R) : tvalue :=
  if bool_decide (numel t = 0) then NaN
  else Scalar (tsum t / INR (numel t)).

(** [F.relu] *)
Definition relu (t : tensor R) : tensor R := tmap (Rmax 0) t.

(** [torch.zeros_like] *)
Definition zeros_like (t : tensor R) : tensor R := tmap (fun _ => 0%R) t.

(** [t > c] *)
Definition Rgtb (x c : R) : bool := if Rlt_dec c x then true else false.

(** [torch.where(cond, a, b)] *)
Definition where_ (cond : tensor bool) (a b : tensor R) : result (tensor R) :=
  ab ← tmap2 pair a b;
  tmap2 (fun (c : bool) (p : R * R) => if c then p.1 else p.2) cond ab.

(** [t.masked_fill(m, v)] *)
Definition masked_fill (t : tensor R) (m : tensor bool) (v : R)
  : result (tensor R) :=
  tmap2 (fun x (b : bool) => if b then v else x) t m.

(** An index into a dimension of size [n]; negative indices count from the
    end.  An index outside the dimension is an [IndexError] when it fits in
    64 bits; one that does not fit is refused as an overflow when it is
    unpacked. *)
Definition normalize_index (n : nat) (z : Z) : result nat :=
  if bool_decide (0 <= z < Z.of_nat n)%Z then Ok (Z.to_nat z)
  else if bool_decide (- Z.of_nat n <= z < 0)%Z
       then Ok (Z.to_nat (z + Z.of_nat n))
       else if bool_decide (int64_min <= z <= int64_max)%Z
            then Raise IndexError
            else Raise ValueError.

(** [t[:, j] = v] for an index already in range. *)
Definition set_column {A} (t : tensor A) (j : nat) (v : A) : tensor A :=
  Tensor (ncols t) (fmap (fun r => <[j := v]> r) (rows t)).

(** [t.T] *)
Definition transpose (t : tensor R) : tensor R :=
  Tensor (nrows t)
    (fmap (fun j => fmap (fun r => default 0%R (r !! j)) (rows t))
         (seq 0 (ncols t))).

Definition dot (x y : list R) : R := vsum (zip_with Rmult x y).

(** [a @ b] *)
Definition matmul (a b : tensor R) : result (tensor R) :=
  if bool_decide (ncols a = nrows b)
  then Ok (Tensor (ncols b)
             (fmap (fun ra => fmap (dot ra) (rows (transpose b))) (rows a)))
  else Raise RuntimeError.

(** The position of the largest entry of a row, the first one among equal
    entries, with that entry. *)
Fixpoint argmax_from (i : nat) (best : nat * R) (xs : list R) : nat * R :=
  match xs with
  | [] => best
  | x :: xs' =>
      argmax_from (S i) (if Rlt_dec best.2 x then (i, x) else best) xs'
  end.

Definition argmax (xs : list R) : option nat :=
  match xs with
  | [] => None
  | x :: xs' => Some (argmax_from 1 (0, x) xs').1
  end.

(** The indices of [torch.topk(t, largest=True, dim=1, k=1)], one per
    row. *)
Definition topk1_indices (t : tensor R) : result (list nat) :=
  if bool_decide (ncols t = 0) then Raise RuntimeError
  else Ok (fmap (fun r => default 0 (argmax r)) (rows t)).

(** [t[idx]]: the rows of [t] at the given indices. *)
Fixpoint index_rows (t : tensor R) (idx : list nat) : result (list (list R)) :=
  match idx with
  | [] => Ok []
  | i :: idx' =>
      match rows t !! i with
      | Some r => rs ← index_rows t idx'; Ok (r :: rs)
      | None => Raise IndexError
      end
  end.

Definition norm2 (x : list R) : R := sqrt (dot x x).

(** [F.cosine_similarity(a, b, dim=1, eps)], one value per row. *)
Definition cosine_similarity (a b : tensor R) (eps : R) : result (list R) :=
  if same_shape a b
  then Ok (zip_with
             (fun x y => (dot x y / (Rmax (norm2 x) eps * Rmax (norm2 y) eps))%R)
             (rows a) (rows b))
  else Raise RuntimeError.

(** The mean of a one-dimensional tensor. *)
Definition vmean (xs : list R) : tvalue :=
  if bool_decide (length xs = 0) then NaN
  else Scalar (vsum xs / INR (length xs)).

End Torch.
Import Torch.

(** ** deepxml/libs/loss.py *)

(** [torch.nn.Module.__init__].  It creates [training] and the tables of
    parameters, buffers, submodules and hooks ([_parameters], [_buffers],
    [_modules], ...), whose names and number depend on the version of the
    library.  Only [training] is kept here: no function of this module
    reads the tables, and nothing below is stated about them. *)
Definition Module__init__ (self : gmap string value) : gmap string value :=
  setattr self "training" (VBool true).

Module _Loss.

Definition params : signature :=
  [("reduction", Some (VStr "mean")); ("pad_ind", Some VNone)].

Definition __init__ (self : gmap string value) (args : list value)
  (kwargs : list (string * value)) : result (gmap string value) :=
  env ← bind_args params args kwargs;
  let self := Module__init__ self in
  let self := setattr self "reduction" (param env "reduction") in
  let self := setattr self "pad_ind" (param env "pad_ind") in
  Ok self.

Definition _reduce (self : gmap string value) (loss : tensor R)
  : result tvalue :=
  reduction ← getattr self "reduction";
  if eq_str reduction "none" then Ok (Mat loss)
  else if eq_str reduction "mean" then Ok (tmean loss)
  else Ok (Scalar (tsum loss)).

(** The padding index is documented as an integer or [None].  What the
    library does with an index of another kind (a bool selects by mask, a
    tensor gathers) is not modelled: such a value raises here, and nothing
    below is concluded from that raise. *)
Definition _mask_at_pad (self : gmap string value) (loss : tensor R)
  : result (tensor R) :=
  pad_ind ← getattr self "pad_ind";
  match pad_ind with
  | VNone => Ok loss
  | VInt z => j ← normalize_index (ncols loss) z; Ok (set_column loss j 0%R)
  | _ => Raise IndexError
  end.

Definition _mask (self : gmap string value) (loss : tensor R)
  (mask : option (tensor bool)) : result (tensor R) :=
  match mask with
  | Some m => masked_fill loss (tmap negb m) 0%R
  | None => Ok loss
  end.

End _Loss.
Import _Loss.

Definition _convert_labels_for_svm (y : tensor R) : tensor R :=
  tmap (fun t => (2 * t - 1)%R) y.

Module HingeLoss.

Definition params : signature :=
  [("margin", Some (VFloat 1)); ("reduction", Some (VStr "mean"));
   ("pad_ind", Some VNone)].

Definition __init__ (self : gmap string value) (args : list value)
  (kwargs : list (string * value)) : result (gmap string value) :=
  env ← bind_args params args kwargs;
  self ← _Loss.__init__ self [param env "reduction"; param env "pad_ind"] [];
  Ok (setattr self "margin" (param env "margin")).

(** Line 85: the loss of every entry before masking. *)
Definition loss_terms (self : gmap string value) (input target : tensor R)
  : result (tensor R) :=
  margin ← getattr self "margin";
  yx ← tmap2 Rmult (_convert_labels_for_svm target) input;
  margin ← as_real margin;
  Ok (relu (tmap (fun v => (margin - v)%R) yx)).

Definition forward (self : gmap string value) (input target : tensor R)
  (mask : option (tensor bool)) : result tvalue :=
  loss ← loss_terms self input target;
  loss ← _mask_at_pad self loss;
  loss ← _mask self loss mask;
  _reduce self loss.

End HingeLoss.

Module SquaredHingeLoss.

Definition params : signature :=
  [("margin", Some (VFloat 1)); ("size_average", Some VNone);
   ("reduce", Some (VBool true)); ("reduction", Some (VStr "mean"))].

Definition __init__ (self : gmap string value) (args : list value)
  (kwargs : list (string * value)) : result (gmap string value) :=
  env ← bind_args params args kwargs;
  self ← _Loss.__init__ self
           [param env "size_average"; param env "reduce";
            param env "reduction"] [];
  Ok (setattr self "margin" (param env "margin")).

(** Lines 131 and 132. *)
Definition loss_terms (self : gmap string value) (input target : tensor R)
  : result (tensor R) :=
  margin ← getattr self "margin";
  yx ← tmap2 Rmult (_convert_labels_for_svm target) input;
  margin ← as_real margin;
  let loss := relu (tmap (fun v => (margin - v)%R) yx) in
  Ok (tmap (fun l => (l ^ 2)%R) loss).

Definition forward (self : gmap string value) (input target : tensor R)
  (mask : option (tensor bool)) : result tvalue :=
  loss ← loss_terms self input target;
  loss ← _mask_at_pad self loss;
  loss ← _mask self loss mask;
  _reduce self loss.

End SquaredHingeLoss.

Module BCEWithLogitsLoss.

Definition params : signature :=
  [("weight", Some VNone); ("reduction", Some (VStr "mean"));
   ("pos_weight", Some VNone); ("pad_ind", Some VNone)].

(** [register_buffer] accepts a tensor or [None], and makes it readable
    as an attribute. *)
Definition register_buffer (self : gmap string value) (name : string)
  (v : value) : result (gmap string value) :=
  match v with
  | VNone | VArray _ => Ok (setattr self name v)
  | _ => Raise TypeError
  end.

Definition __init__ (self : gmap string value) (args : list value)
  (kwargs : list (string * value)) : result (gmap string value) :=
  env ← bind_args params args kwargs;
  self ← _Loss.__init__ self [param env "reduction"; param env "pad_ind"] [];
  self ← register_buffer self "weight" (param env "weight");
  self ← register_buffer self "pos_weight" (param env "pos_weight");
  Ok self.

Definition log_sigmoid (x : R) : R := (- ln (1 + exp (- x)))%R.

(** A weight vector is [None] or holds one weight per class, applied to
    every row. *)
Definition class_weights (n : nat) (w : value) : result (list R) :=
  match w with
  | VNone => Ok (replicate n 1%R)
  | VArray ws => if bool_decide (length ws = n) then Ok ws
                 else Raise RuntimeError
  | _ => Raise TypeError
  end.

(** [F.binary_cross_entropy_with_logits(input, target, weight,
    pos_weight=pos_weight, reduction='none')]; it first refuses, with a
    [ValueError], a target whose size is not that of the input. *)
Definition binary_cross_entropy_with_logits (input target : tensor R)
  (weight pos_weight : value) : result (tensor R) :=
  _ ← (if same_shape target input then Ok tt else Raise ValueError);
  xy ← tmap2 pair input target;
  pw ← class_weights (ncols input) pos_weight;
  w ← class_weights (ncols input) weight;
  Ok (Tensor (ncols input)
        (fmap (fun r =>
                zip_with (fun '(x, y) '(p, w) =>
                            (((1 - y) * x
                              - ((p - 1) * y + 1) * log_sigmoid x) * w)%R)
                         r (zip pw w))
             (rows xy))).

Definition loss_terms (self : gmap string value) (input target : tensor R)
  : result (tensor R) :=
  weight ← getattr self "weight";
  pos_weight ← getattr self "pos_weight";
  binary_cross_entropy_with_logits input target weight pos_weight.

Definition forward (self : gmap string value) (input target : tensor R)
  (mask : option (tensor bool)) : result tvalue :=
  loss ← loss_terms self input target;
  loss ← _mask_at_pad self loss;
  loss ← _mask self loss mask;
  _reduce self loss.

End BCEWithLogitsLoss.

Module CosineEmbeddingLoss.

Definition params : signature :=
  [("margin", Some (VFloat (8 / 10))); ("reduction", Some (VStr "mean"));
   ("pos_weight", Some (VFloat 1))].

Definition __init__ (self : gmap string value) (args : list value)
  (kwargs : list (string * value)) : result (gmap string value) :=
  env ← bind_args params args kwargs;
  self ← _Loss.__init__ self [] [("reduction", param env "reduction")];
  let self := setattr self "margin" (param env "margin") in
  let self := setattr self "pos_weight" (param env "pos_weight") in
  Ok self.

(** Lines 236 to 238. *)
Definition loss_terms (self : gmap string value) (input target : tensor R)
  : result (tensor R) :=
  let positive := tmap (fun t => Rgtb t 0) target in
  pos_weight ← getattr self "pos_weight" ≫= as_real;
  let pos := tmap (fun x => ((1 - x) * pos_weight)%R) input in
  margin ← getattr self "margin" ≫= as_real;
  neg ← tmap2 Rmax (zeros_like input) (tmap (fun x => (x - margin)%R) input);
  where_ positive pos neg.

Definition forward (self : gmap string value) (input target : tensor R)
  (mask : option (tensor bool)) : result tvalue :=
  loss ← loss_terms self input target;
  loss ← _mask_at_pad self loss;
  loss ← _mask self loss mask;
  _reduce self loss.

End CosineEmbeddingLoss.

(** The names bound at the top of the module. *)
Definition module_globals : gmap string value :=
  list_to_map
    ((fun n => (n, VGlobal n)) <$>
     ["torch"; "F"; "_Loss"; "_convert_labels_for_svm"; "HingeLoss";
      "SquaredHingeLoss"; "BCEWithLogitsLoss"; "CosineEmbeddingLoss";
      "TripletMarginLossOHNM"]).

(** Reading a name that is not a local of the function. *)
Definition load_global (name : string) : result value :=
  match module_globals !! name with
  | Some v => Ok v
  | None => Raise (NameError name)
  end.

(** In the source the [class] statement of this loss is indented under
    [CosineEmbeddingLoss], with its body at the same depth; the methods are
    embedded as they are written, as those of a class of its own. *)
Module TripletMarginLossOHNM.

Definition params : signature :=
  [("margin", Some (VFloat (8 / 10))); ("reduction", Some (VStr "mean"))].

Definition __init__ (self : gmap string value) (args : list value)
  (kwargs : list (string * value)) : result (gmap string value) :=
  env ← bind_args params args kwargs;
  self ← _Loss.__init__ self [] [("reduction", param env "reduction")];
  Ok (setattr self "margin" (param env "margin")).

Definition forward (self : gmap string value)
  (doc_embeddings label_embeddings selection : tensor R) : result tvalue :=
  scores ← matmul doc_embeddings (transpose label_embeddings);
  similarities ← tmap2 Rmin scores (tmap (fun s => (1 - s)%R) selection);
  indices ← topk1_indices similarities;
  negatives ← index_rows label_embeddings indices;
  let negative_label_embeddings :=
    Tensor (ncols label_embeddings) negatives in
  eps ← getattr self "_eps" ≫= as_real;
  sim_p ← cosine_similarity doc_embeddings label_embeddings eps;
  eps ← getattr self "_eps" ≫= as_real;
  sim_n ← cosine_similarity doc_embeddings negative_label_embeddings eps;
  let difference := zip_with Rminus sim_n sim_p in
  margin ← load_global "margin" ≫= as_real;
  let loss := fmap (fun d => Rmax 0 (d + margin)) difference in
  reduction ← getattr self "_reduction";
  if eq_str reduction "mean" then Ok (vmean loss)
  else Ok (Scalar (vsum loss)).

End TripletMarginLossOHNM.

(** The four classes whose [forward] ends in the shared masking and
    reduction steps. *)
Inductive loss_class := CHinge | CSquaredHinge | CBCEWithLogits | CCosineEmbedding.

Definition loss_terms (c : loss_class) :=
  match c with
  | CHinge => HingeLoss.loss_terms
  | CSquaredHinge => SquaredHingeLoss.loss_terms
  | CBCEWithLogits => BCEWithLogitsLoss.loss_terms
  | CCosineEmbedding => CosineEmbeddingLoss.loss_terms
  end.

Definition forward (c : loss_class) :=
  match c with
  | CHinge => HingeLoss.forward
  | CSquaredHinge => SquaredHingeLoss.forward
  | CBCEWithLogits => BCEWithLogitsLoss.forward
  | CCosineEmbedding => CosineEmbeddingLoss.forward
  end.

(** ** siamesexml/libs/sampling.py *)

Module Sampling.

(** The objects reached through references, the pickle files by name, the
    global [RandomState] of numpy and the next free reference.  The
    generator is the sequence of the choices it goes on to make and the
    number of choices made so far; which integer its rejection sampling
    picks, and how many raw words that takes, is not described. *)
Record state := State {
  heap : gmap nat (gmap string value);
  files : gmap string value;
  rng_stream : nat -> Z;
  rng_pos : nat;
  next_ref : nat
}.

Definition set_heap (h : gmap nat (gmap string value)) (st : state) : state :=
  State h (files st) (rng_stream st) (rng_pos st) (next_ref st).

Definition set_files (f : gmap string value) (st : state) : state :=
  State (heap st) f (rng_stream st) (rng_pos st) (next_ref st).

Definition advance_rng (n : nat) (st : state) : state :=
  State (heap st) (files st) (rng_stream st) (rng_pos st + n) (next_ref st).

(** [self.__dict__] *)
Definition get_dict (self : nat) (st : state) : result (gmap string value) :=
  match heap st !! self with
  | Some d => Ok d
  | None => Raise RuntimeError
  end.

(** [self.name] *)
Definition get_attr (self : nat) (name : string) (st : state) : result value :=
  d ← get_dict self st; getattr d name.

(** [self.name = v] *)
Definition set_attr (self : nat) (name : string) (v : value) (st : state)
  : result state :=
  d ← get_dict self st;
  Ok (set_heap (<[self := setattr d name v]> (heap st)) st).

(** A new object without attributes. *)
Definition allocate (st : state) : nat * state :=
  (next_ref st,
   State (<[next_ref st := ∅]> (heap st)) (files st) (rng_stream st)
         (rng_pos st) (S (next_ref st))).

(** [np.random.randint(low, high, size)] on integers.  A size of 0 gives
    the empty array before anything is checked.  Otherwise [low] and
    [high - 1] have to be in the range of [int64] and the range [[low,
    high)] must not be empty; the array must have a size that is not
    negative and that [int64] can address, at 8 bytes an entry.  Each entry
    is then an integer of [[low, high)] that the generator chooses: the
    next choice of the sequence, taken into the range.  An allocation that
    fails for want of memory is outside the model. *)
Definition randint (low high size : Z) (st : state)
  : result (list Z * state) :=
  if bool_decide (size = 0)%Z then Ok ([], st)
  else if bool_decide (low < int64_min)%Z then Raise ValueError
  else if bool_decide (int64_max < high - 1)%Z then Raise ValueError
  else if bool_decide (high - 1 < low)%Z then Raise ValueError
  else if bool_decide (size < 0)%Z then Raise ValueError
  else if bool_decide (int64_max < 8 * size)%Z then Raise ValueError
  else
    let n := Z.to_nat size in
    Ok (fmap (fun k => (low + rng_stream st (rng_pos st + k) `mod` (high - low))%Z)
             (seq 0 n),
        advance_rng n st).

Definition as_int (v : value) : result Z :=
  match v with
  | VInt z => Ok z
  | VBool b => Ok (if b then 1%Z else 0%Z)
  | _ => Raise TypeError
  end.

(** Calling a value with keyword arguments: a [partial] adds the keywords
    it holds, those of the call taking precedence. *)
Definition call (f : value) (kwargs : gmap string value) (st : state)
  : result (list Z * state) :=
  match f with
  | VPartial np_random_randint kw =>
      let kw := kwargs ∪ kw in
      low ← getattr kw "low" ≫= as_int;
      high ← getattr kw "high" ≫= as_int;
      size ← getattr kw "size" ≫= as_int;
      randint low high size st
  | _ => Raise TypeError
  end.

(** [[1.0] * n] *)
Definition list_repeat (x : R) (n : Z) : list R := replicate (Z.to_nat n) x.

Module BaseSampler.

Definition params : signature :=
  [("size", None); ("num_samples", None); ("prob", Some VNone);
   ("replace", Some (VBool true))].

Definition _construct (self : nat) (st : state) : result state :=
  size ← get_attr self "size" st;
  set_attr self "index"
    (VPartial np_random_randint {[ "low" := VInt 0; "high" := size ]}) st.

Definition __init__ (self : nat) (args : list value)
  (kwargs : list (string * value)) (st : state) : result state :=
  env ← bind_args params args kwargs;
  st ← set_attr self "size" (param env "size") st;
  st ← set_attr self "num_samples" (param env "num_samples") st;
  st ← set_attr self "prob" (param env "prob") st;
  st ← set_attr self "replace" (param env "replace") st;
  st ← set_attr self "index" VNone st;
  _construct self st.

(** [BaseSampler(...)]: a new object, initialised. *)
Definition new (args : list value) (kwargs : list (string * value))
  (st : state) : result (nat * state) :=
  let '(self, st) := allocate st in
  st ← __init__ self args kwargs st;
  Ok (self, st).

Definition _query (self : nat) (st : state)
  : result ((list Z * list R) * state) :=
  index ← get_attr self "index" st;
  num_samples ← get_attr self "num_samples" st;
  '(indices, st) ← call index {[ "size" := num_samples ]} st;
  num_samples ← get_attr self "num_samples" st ≫= as_int;
  Ok ((indices, list_repeat 1 num_samples), st).

Fixpoint _query_times (self : nat) (n : nat) (st : state)
  : result (list (list Z * list R) * state) :=
  match n with
  | O => Ok ([], st)
  | S n' =>
      '(q, st) ← _query self st;
      '(qs, st) ← _query_times self n' st;
      Ok (q :: qs, st)
  end.

(** What [query] returns: one pair, or a list of pairs. *)
Inductive shortlist :=
  | One (q : list Z * list R)
  | Many (qs : list (list Z * list R)).

Definition query (self : nat) (num_instances : Z) (st : state)
  : result (shortlist * state) :=
  if bool_decide (num_instances = 1%Z)
  then '(q, st) ← _query self st; Ok (One q, st)
  else '(qs, st) ← _query_times self (Z.to_nat num_instances) st;
       Ok (Many qs, st).

(** Pickling is taken to store the dictionary as it is. *)
Definition save (self : nat) (fname : string) (st : state) : result state :=
  state ← get_dict self st;
  Ok (set_files (<[fname := VDict state]> (files st)) st).

(** The names of the call are [self] and [fname]; the assignment gives the
    name [self] a new value. *)
Definition load (self : nat) (fname : string) (st : state) : result state :=
  let frame : gmap string value :=
    {[ "self" := VRef self; "fname" := VStr fname ]} in
  match files st !! fname with
  | None => Raise (FileNotFoundError fname)
  | Some unpickled =>
      let frame := <["self" := unpickled]> frame in
      Ok st
  end.

Definition data_init (self : nat) (st : state) : result bool :=
  index ← get_attr self "index" st;
  Ok (match index with VNone => false | _ => true end).

End BaseSampler.

End Sampling.

(** ** The statements of the specification that the code is compared with *)

Module Spec.

(** The column that a loss object pads in a tensor of width [n], if it
    pads one. *)
Definition pad_column (self : gmap string value) (n : nat) : option nat :=
  match self !! "pad_ind" with
  | Some (VInt z) =>
      match normalize_index n z with
      | Ok j => Some j
      | Raise _ => None
      end
  | _ => None
  end.

(** An entry counts when it is outside the padding column and the mask, if
    there is one, is true there. *)
Definition counted (pad : option nat) (mask : option (tensor bool))
  (i j : nat) : bool :=
  negb (bool_decide (pad = Some j))
  && match mask with
     | Some m => default false (tget m i j)
     | None => true
     end.

(** The elementwise losses that survive masking. *)
Definition surviving (pad : option nat) (mask : option (tensor bool))
  (loss : tensor R) : list R :=
  mjoin (imap (fun i r =>
                 omap (fun o : option R => o)
                      (imap (fun j x =>
                                  if counted pad mask i j then Some x else None)
                               r))
              (rows loss)).

(** The mean over the unmasked, non-pad elements. *)
Definition mean_of_counted (pad : option nat) (mask : option (tensor bool))
  (loss : tensor R) : R :=
  (vsum (surviving pad mask loss) / INR (length (surviving pad mask loss)))%R.

End Spec.
Import Spec.

(** * Properties *)

(** ** Results *)

Lemma bind_Ok {A B} (c : result A) (k : A -> result B) (b : B) :
  (c ≫= k) = Ok b <-> exists a, c = Ok a /\ k a = Ok b.
Proof.
  destruct c as [a|e]; simpl; split.
  - intros H. exists a. auto.
  - intros (a' & Ha & Hk). congruence.
  - discriminate.
  - intros (a' & Ha & _). discriminate.
Qed.

Lemma mbind_Ok {A B} (a : A) (k : A -> result B) : (Ok a ≫= k) = k a.
Proof. reflexivity. Qed.

Lemma bind_Ok_l {A B} (c : result A) (k : A -> result B) (a : A) :
  c = Ok a -> (c ≫= k) = k a.
Proof. intros ->. reflexivity. Qed.

(** ** Binding arguments *)

Lemma bind_positional_exn params args e :
  bind_positional params args = Raise e -> e = TypeError.
Proof.
  revert params. induction args as [|a args IH]; intros params; simpl.
  - discriminate.
  - destruct params as [|[p d] params]; [congruence|].
    destruct (bind_positional params args) as [[env rest]|e'] eqn:E.
    + discriminate.
    + intros [= <-]. eauto.
Qed.

Lemma bind_keywords_exn rest kwargs env e :
  bind_keywords rest kwargs env = Raise e -> e = TypeError.
Proof.
  revert env. induction kwargs as [|[k v] kwargs IH]; intros env; simpl.
  - discriminate.
  - destruct (env !! k); [congruence|].
    destruct (bool_decide _); [eauto | congruence].
Qed.

Lemma bind_defaults_exn rest env e :
  bind_defaults rest env = Raise e -> e = TypeError.
Proof.
  revert env. induction rest as [|[p d] rest IH]; intros env; simpl.
  - discriminate.
  - destruct (env !! p); [eauto|]. destruct d; [eauto | congruence].
Qed.

Lemma bind_args_exn params args kwargs e :
  bind_args params args kwargs = Raise e -> e = TypeError.
Proof.
  unfold bind_args.
  destruct (bind_positional params args) as [[env rest]|e'] eqn:E.
  - destruct (bind_keywords rest kwargs env) as [env'|e'] eqn:E'; simpl.
    + apply bind_defaults_exn.
    + intros [= <-]. eapply bind_keywords_exn, E'.
  - intros [= <-]. eapply bind_positional_exn, E.
Qed.

(** The base initializer takes at most two arguments after [self]. *)
Lemma _Loss_init_three_positional self a b c :
  _Loss.__init__ self [a; b; c] [] = Raise TypeError.
Proof. reflexivity. Qed.

(** C5: constructing [SquaredHingeLoss] raises [TypeError] whatever the
    arguments are, positional or keyword: either its own arguments do not
    bind, or they do and the three positional arguments it forwards are one
    too many for the base initializer.  No instance is ever created. *)
Theorem SquaredHingeLoss_init_raises (self : gmap string value)
  (args : list value) (kwargs : list (string * value)) :
  SquaredHingeLoss.__init__ self args kwargs = Raise TypeError.
Proof.
  unfold SquaredHingeLoss.__init__.
  destruct (bind_args SquaredHingeLoss.params args kwargs) as [env|e] eqn:E.
  - change (_Loss.__init__ self
              [param env "size_average"; param env "reduce";
               param env "reduction"] []
            ≫= (fun self' => Ok (setattr self' "margin" (param env "margin")))
            = Raise TypeError).
    rewrite _Loss_init_three_positional. reflexivity.
  - simpl. f_equal. eapply bind_args_exn, E.
Qed.

(** ** Tensors: entries, shapes and sums *)

Lemma tget_tmap {A B} (f : A -> B) (t : tensor A) i j :
  tget (tmap f t) i j = f <$> tget t i j.
Proof.
  unfold tget, tmap. simpl. rewrite list_lookup_fmap.
  destruct (rows t !! i) as [r|]; simpl; [|reflexivity].
  apply list_lookup_fmap.
Qed.

Lemma same_shape_true {A B} (a : tensor A) (b : tensor B) :
  same_shape a b = true <-> nrows a = nrows b /\ ncols a = ncols b.
Proof.
  unfold same_shape. rewrite andb_true_iff, !bool_decide_eq_true. tauto.
Qed.

Lemma tmap2_Ok {A B C} (f : A -> B -> C) a b c :
  tmap2 f a b = Ok c ->
  nrows a = nrows b /\ ncols a = ncols b /\
  c = Tensor (ncols a) (zip_with (zip_with f) (rows a) (rows b)).
Proof.
  unfold tmap2. destruct (same_shape a b) eqn:E; [|discriminate].
  apply same_shape_true in E as [? ?]. intros [= <-]. auto.
Qed.

Lemma tmap2_same_shape {A B C} (f : A -> B -> C) a b :
  nrows a = nrows b -> ncols a = ncols b ->
  tmap2 f a b = Ok (Tensor (ncols a) (zip_with (zip_with f) (rows a) (rows b))).
Proof.
  intros Hr Hc. unfold tmap2.
  assert (same_shape a b = true) as -> by (apply same_shape_true; auto).
  reflexivity.
Qed.

Lemma tget_zip_with {A B C} (f : A -> B -> C) n (ra : list (list A))
  (rb : list (list B)) i j :
  tget (Tensor n (zip_with (zip_with f) ra rb)) i j =
  (x ← tget (Tensor n ra) i j; y ← tget (Tensor n rb) i j; Some (f x y)).
Proof.
  unfold tget. simpl. rewrite lookup_zip_with.
  destruct (ra !! i) as [r|]; simpl; [|reflexivity].
  destruct (rb !! i) as [r'|]; simpl.
  - apply lookup_zip_with.
  - destruct (r !! j); reflexivity.
Qed.

Lemma tget_tmap2 {A B C} (f : A -> B -> C) a b c i j :
  tmap2 f a b = Ok c ->
  tget c i j = (x ← tget a i j; y ← tget b i j; Some (f x y)).
Proof.
  intros (_ & _ & ->)%tmap2_Ok. rewrite tget_zip_with.
  destruct a, b; reflexivity.
Qed.

Lemma nrows_tmap {A B} (f : A -> B) t : nrows (tmap f t) = nrows t.
Proof. unfold nrows, tmap. simpl. apply length_fmap. Qed.

Lemma ncols_tmap {A B} (f : A -> B) t : ncols (tmap f t) = ncols t.
Proof. reflexivity. Qed.

Lemma wf_tmap {A B} (f : A -> B) t : wf t -> wf (tmap f t).
Proof.
  unfold wf, tmap. simpl. intros H. apply Forall_fmap.
  eapply Forall_impl; [exact H|]. intros r Hr. simpl.
  rewrite length_fmap. exact Hr.
Qed.

Lemma tmap2_shape {A B C} (f : A -> B -> C) a b c :
  tmap2 f a b = Ok c -> nrows c = nrows a /\ ncols c = ncols a.
Proof.
  intros (Hr & _ & ->)%tmap2_Ok. unfold nrows in *. simpl.
  rewrite length_zip_with. split; [lia | reflexivity].
Qed.

Lemma wf_tmap2 {A B C} (f : A -> B -> C) a b c :
  wf a -> wf b -> tmap2 f a b = Ok c -> wf c.
Proof.
  intros Ha Hb (_ & Hc & ->)%tmap2_Ok. unfold wf in *. simpl.
  apply Forall_lookup_2. intros i r Hi.
  apply lookup_zip_with_Some in Hi as (x & y & -> & Hx & Hy).
  rewrite length_zip_with.
  rewrite (Forall_lookup_1 _ _ _ _ Ha Hx), (Forall_lookup_1 _ _ _ _ Hb Hy).
  lia.
Qed.

(** An entry of a well-formed tensor exists exactly inside its shape. *)
Lemma tget_is_Some {A} (t : tensor A) i j :
  wf t -> i < nrows t -> j < ncols t -> is_Some (tget t i j).
Proof.
  intros Hwf Hi Hj. unfold tget.
  destruct (lookup_lt_is_Some_2 (rows t) i Hi) as [r Hr]. rewrite Hr. simpl.
  apply lookup_lt_is_Some_2. rewrite (Forall_lookup_1 _ _ _ _ Hwf Hr). exact Hj.
Qed.

Lemma tget_Some_lt {A} (t : tensor A) i j x :
  wf t -> tget t i j = Some x -> i < nrows t /\ j < ncols t.
Proof.
  intros Hwf. unfold tget.
  destruct (rows t !! i) as [r|] eqn:Hr; simpl; [|discriminate].
  intros Hj. split.
  - eapply lookup_lt_Some, Hr.
  - rewrite <- (Forall_lookup_1 _ _ _ _ Hwf Hr). eapply lookup_lt_Some, Hj.
Qed.

Lemma tget_set_column {A} (t : tensor A) j v i j' :
  tget (set_column t j v) i j' =
  if decide (j = j') then (fun _ => v) <$> tget t i j' else tget t i j'.
Proof.
  unfold tget, set_column. simpl. rewrite list_lookup_fmap.
  destruct (rows t !! i) as [r|]; simpl.
  - rewrite list_lookup_insert. destruct (decide (j = j')) as [->|Hne].
    + destruct (decide (j' = j' ∧ j' < length r)) as [[_ Hlt]|Hn].
      * destruct (lookup_lt_is_Some_2 r j' Hlt) as [x ->]. reflexivity.
      * rewrite lookup_ge_None_2; [reflexivity | lia].
    + destruct (decide _) as [[? _]|_]; [contradiction | reflexivity].
  - destruct (decide _); reflexivity.
Qed.

Lemma relu_nonneg x : (0 <= Rmax 0 x)%R.
Proof. apply Rmax_l. Qed.

Lemma vsum_app xs ys : vsum (xs ++ ys) = (vsum xs + vsum ys)%R.
Proof.
  induction xs as [|x xs IH]; simpl.
  - lra.
  - rewrite IH. lra.
Qed.

(** Summing a row with the entries that do not count set to zero is summing
    the entries that count. *)
Lemma vsum_imap_counted (c : nat -> bool) (r : list R) :
  vsum (imap (fun j x => if c j then x else 0%R) r) =
  vsum (omap (fun o : option R => o)
             (imap (fun j x => if c j then Some x else None) r)).
Proof.
  revert c. induction r as [|x r IH]; intros c; simpl; [reflexivity|].
  destruct (c 0); simpl.
  - f_equal. exact (IH (fun j => c (S j))).
  - rewrite Rplus_0_l. exact (IH (fun j => c (S j))).
Qed.

Lemma tsum_imap_counted (c : nat -> nat -> bool) (rs : list (list R)) :
  vsum (vsum <$> imap (fun i r => imap (fun j x => if c i j then x else 0%R) r) rs) =
  vsum (mjoin (imap (fun i r =>
                       omap (fun o : option R => o)
                            (imap (fun j x => if c i j then Some x else None) r))
                    rs)).
Proof.
  revert c. induction rs as [|r rs IH]; intros c; simpl; [reflexivity|].
  rewrite vsum_app, vsum_imap_counted. f_equal.
  apply (IH (fun i => c (S i))).
Qed.

(** A tensor is determined by its shape and its entries. *)
Lemma rows_imap (g : nat -> nat -> R -> R) (a b : tensor R) :
  wf a -> wf b -> nrows b = nrows a -> ncols b = ncols a ->
  (forall i j x, tget a i j = Some x -> tget b i j = Some (g i j x)) ->
  rows b = imap (fun i r => imap (g i) r) (rows a).
Proof.
  intros Ha Hb Hr Hc Hget. apply list_eq. intros i.
  rewrite list_lookup_imap.
  destruct (rows a !! i) as [ra|] eqn:Era; simpl.
  - assert (i < nrows b) as Hi
      by (rewrite Hr; eapply lookup_lt_Some, Era).
    destruct (lookup_lt_is_Some_2 (rows b) i Hi) as [rb Erb].
    rewrite Erb. f_equal. apply list_eq. intros j.
    rewrite list_lookup_imap.
    pose proof (Forall_lookup_1 _ _ _ _ Ha Era) as La.
    pose proof (Forall_lookup_1 _ _ _ _ Hb Erb) as Lb. simpl in La, Lb.
    destruct (ra !! j) as [x|] eqn:Ex; simpl.
    + specialize (Hget i j x). unfold tget in Hget.
      rewrite Era, Erb in Hget. simpl in Hget. auto.
    + apply lookup_ge_None_2. apply lookup_ge_None_1 in Ex. lia.
  - apply lookup_ge_None_2. apply lookup_ge_None_1 in Era.
    unfold nrows in Hr. lia.
Qed.

(** ** The shared masking and reduction steps *)

Lemma forward_unfold c self input target mask :
  forward c self input target mask =
  (loss ← loss_terms c self input target;
   loss ← _mask_at_pad self loss;
   loss ← _mask self loss mask;
   _reduce self loss).
Proof. destruct c; reflexivity. Qed.

Lemma wf_set_column {A} (t : tensor A) j v : wf t -> wf (set_column t j v).
Proof.
  unfold wf, set_column. simpl. intros H. apply Forall_fmap.
  eapply Forall_impl; [exact H|]. intros r Hr. simpl.
  rewrite length_insert. exact Hr.
Qed.

Lemma normalize_index_lt n z j : normalize_index n z = Ok j -> j < n.
Proof.
  unfold normalize_index. repeat case_bool_decide; intros [= <-]; lia.
Qed.

(** Padding: the padded column becomes zero, nothing else changes. *)
Lemma _mask_at_pad_spec self loss l1 :
  wf loss -> _mask_at_pad self loss = Ok l1 ->
  wf l1 /\ nrows l1 = nrows loss /\ ncols l1 = ncols loss /\
  forall i j x, tget loss i j = Some x ->
    tget l1 i j =
    Some (if bool_decide (pad_column self (ncols loss) = Some j) then 0%R else x).
Proof.
  intros Hwf. unfold _mask_at_pad, Spec.pad_column, getattr.
  destruct (self !! "pad_ind") as [v|]; simpl; [|discriminate].
  destruct v; try discriminate.
  - intros [= <-]. repeat split; auto.
  - destruct (normalize_index (ncols loss) z) as [j0|e]; simpl; [|discriminate].
    intros [= <-]. split; [by apply wf_set_column|].
    split; [unfold nrows, set_column; simpl; apply length_fmap|].
    split; [reflexivity|].
    intros i j x Hx. rewrite tget_set_column, Hx.
    destruct (decide (j0 = j)) as [->|Hne].
    + rewrite bool_decide_eq_true_2; reflexivity.
    + rewrite bool_decide_eq_false_2; [reflexivity | congruence].
Qed.

(** Masking: an entry where the mask is false becomes zero, nothing else
    changes. *)
Lemma _mask_spec self l1 mask l2 :
  wf l1 -> (forall m, mask = Some m -> wf m) -> _mask self l1 mask = Ok l2 ->
  wf l2 /\ nrows l2 = nrows l1 /\ ncols l2 = ncols l1 /\
  forall i j x, tget l1 i j = Some x ->
    tget l2 i j =
    Some (match mask with
          | Some m => if default false (tget m i j) then x else 0%R
          | None => x
          end).
Proof.
  intros Hwf Hm. unfold _mask, masked_fill. destruct mask as [m|].
  - intros H. specialize (Hm m eq_refl).
    pose proof (wf_tmap negb m Hm) as Hm'.
    pose proof (tmap2_shape _ _ _ _ H) as [Hr Hc].
    pose proof (tmap2_Ok _ _ _ _ H) as (Hr' & Hc' & _).
    split; [exact (wf_tmap2 _ _ _ _ Hwf Hm' H)|]. repeat split; auto.
    intros i j x Hx. rewrite (tget_tmap2 _ _ _ _ i j H), Hx. simpl.
    rewrite tget_tmap.
    destruct (tget_Some_lt _ _ _ _ Hwf Hx) as [Hi Hj].
    rewrite nrows_tmap in Hr'. rewrite ncols_tmap in Hc'.
    destruct (tget_is_Some m i j Hm) as [b Hb]; [lia | lia |].
    rewrite Hb. simpl. destruct b; reflexivity.
  - intros [= <-]. repeat split; auto.
Qed.

(** After both steps an entry keeps its loss if it counts and is zero if it
    does not. *)
Lemma masking_spec self loss mask l1 l2 :
  wf loss -> (forall m, mask = Some m -> wf m) ->
  _mask_at_pad self loss = Ok l1 -> _mask self l1 mask = Ok l2 ->
  wf l2 /\ nrows l2 = nrows loss /\ ncols l2 = ncols loss /\
  forall i j x, tget loss i j = Some x ->
    tget l2 i j =
    Some (if counted (pad_column self (ncols loss)) mask i j then x else 0%R).
Proof.
  intros Hwf Hm H1 H2.
  destruct (_mask_at_pad_spec _ _ _ Hwf H1) as (Hwf1 & Hr1 & Hc1 & Hg1).
  destruct (_mask_spec _ _ _ _ Hwf1 Hm H2) as (Hwf2 & Hr2 & Hc2 & Hg2).
  split; [exact Hwf2|]. split; [congruence|]. split; [congruence|].
  intros i j x Hx. rewrite (Hg2 i j _ (Hg1 i j x Hx)). f_equal.
  unfold counted.
  case_bool_decide; simpl;
    (destruct mask as [m|]; [destruct (default false _)|]; reflexivity).
Qed.

(** The steps succeed when the padding index, if there is one, is inside
    the width and the mask, if there is one, has the shape of the loss. *)
Lemma masking_total self loss mask :
  (self !! "pad_ind" = Some VNone \/
   exists z, self !! "pad_ind" = Some (VInt z) /\
             (- Z.of_nat (ncols loss) <= z < Z.of_nat (ncols loss))%Z) ->
  (forall m, mask = Some m -> nrows m = nrows loss /\ ncols m = ncols loss) ->
  exists l1 l2, _mask_at_pad self loss = Ok l1 /\ _mask self l1 mask = Ok l2.
Proof.
  intros Hpad Hmask.
  assert (exists l1, _mask_at_pad self loss = Ok l1 /\
                     nrows l1 = nrows loss /\ ncols l1 = ncols loss)
    as (l1 & H1 & Hr & Hc).
  { unfold _mask_at_pad, getattr.
    destruct Hpad as [-> | (z & -> & Hz)]; simpl.
    - eauto.
    - unfold normalize_index. repeat case_bool_decide; simpl;
        try (eexists; split; [reflexivity|]; split;
             [unfold nrows, set_column; simpl; apply length_fmap | reflexivity]);
        lia. }
  exists l1. unfold _mask, masked_fill. destruct mask as [m|].
  - destruct (Hmask m eq_refl) as [Hr' Hc'].
    rewrite tmap2_same_shape; [eauto | |].
    + rewrite nrows_tmap. congruence.
    + rewrite ncols_tmap. congruence.
  - eauto.
Qed.

Lemma _reduce_none self loss :
  self !! "reduction" = Some (VStr "none") -> _reduce self loss = Ok (Mat loss).
Proof. intros H. unfold _reduce, getattr. rewrite H. reflexivity. Qed.

Lemma _reduce_mean self loss :
  self !! "reduction" = Some (VStr "mean") -> _reduce self loss = Ok (tmean loss).
Proof. intros H. unfold _reduce, getattr. rewrite H. reflexivity. Qed.

(** C7: with a reduction string that is neither 'none' nor 'mean' ('sum' or
    any other string) the reduction step returns the sum of the loss
    elements and raises nothing. *)
Theorem _reduce_other_string_is_sum (self : gmap string value) (s : string)
  (loss : tensor R) :
  self !! "reduction" = Some (VStr s) -> s <> "none" -> s <> "mean" ->
  _reduce self loss = Ok (Scalar (tsum loss)).
Proof.
  intros H Hnone Hmean. unfold _reduce, getattr. rewrite H. simpl.
  rewrite !bool_decide_eq_false_2 by assumption. reflexivity.
Qed.

Lemma _reduce_other_string_is_sum_witness :
  _reduce {[ "reduction" := VStr "total"; "pad_ind" := VNone ]}
          (Tensor 2 [[1; 2]; [3; 4]]%R)
  = Ok (Scalar (tsum (Tensor 2 [[1; 2]; [3; 4]]%R))).
Proof.
  apply (_reduce_other_string_is_sum _ "total"); [reflexivity | | ];
    intros H; discriminate H.
Defined.

(** What [forward] returns, in terms of the loss of every entry. *)
Lemma forward_masked c self input target mask loss v :
  loss_terms c self input target = Ok loss -> wf loss ->
  (forall m, mask = Some m -> wf m) ->
  forward c self input target mask = Ok v ->
  exists out,
    _reduce self out = Ok v /\
    wf out /\ nrows out = nrows loss /\ ncols out = ncols loss /\
    forall i j x, tget loss i j = Some x ->
      tget out i j =
      Some (if counted (pad_column self (ncols loss)) mask i j then x else 0%R).
Proof.
  intros Hl Hwf Hm. rewrite forward_unfold, Hl. simpl.
  destruct (_mask_at_pad self loss) as [l1|e] eqn:H1; simpl; [|discriminate].
  destruct (_mask self l1 mask) as [l2|e] eqn:H2; simpl; [|discriminate].
  intros Hv. exists l2. split; [exact Hv|].
  eapply masking_spec; eauto.
Qed.

Lemma forward_total c self input target mask loss :
  loss_terms c self input target = Ok loss ->
  is_Some (self !! "reduction") ->
  (self !! "pad_ind" = Some VNone \/
   exists z, self !! "pad_ind" = Some (VInt z) /\
             (- Z.of_nat (ncols loss) <= z < Z.of_nat (ncols loss))%Z) ->
  (forall m, mask = Some m -> nrows m = nrows loss /\ ncols m = ncols loss) ->
  is_ok (forward c self input target mask).
Proof.
  intros Hl [r Hr] Hpad Hmask. rewrite forward_unfold, Hl. simpl.
  destruct (masking_total self loss mask Hpad Hmask) as (l1 & l2 & -> & H2).
  simpl. rewrite H2. simpl. unfold _reduce, getattr. rewrite Hr. simpl.
  unfold is_ok. destruct (eq_str r "none"); [eauto|].
  destruct (eq_str r "mean"); eauto.
Qed.

(** ** The loss of every entry *)

Lemma class_weights_length n w ws :
  BCEWithLogitsLoss.class_weights n w = Ok ws -> length ws = n.
Proof.
  unfold BCEWithLogitsLoss.class_weights. destruct w; try discriminate.
  - intros [= <-]. apply length_replicate.
  - case_bool_decide; [|discriminate]. intros [= <-]. assumption.
Qed.

(** The elementwise loss of well-formed arguments is well formed and has
    the shape of the input. *)
Lemma loss_terms_wf c self input target loss :
  wf input -> wf target -> loss_terms c self input target = Ok loss ->
  wf loss /\ nrows loss = nrows input /\ ncols loss = ncols input.
Proof.
  intros Hi Ht. pose proof (wf_tmap (fun t => (2 * t - 1)%R) target Ht) as Hy.
  destruct c; simpl.
  - unfold HingeLoss.loss_terms.
    destruct (getattr self "margin") as [v|]; simpl; [|discriminate].
    destruct (tmap2 _ _ _) as [yx|] eqn:E; simpl; [|discriminate].
    destruct (as_real v) as [m|]; simpl; [|discriminate]. intros [= <-].
    pose proof (wf_tmap2 _ _ _ _ Hy Hi E) as Hyx.
    destruct (tmap2_Ok _ _ _ _ E) as (Hr & Hc & _).
    destruct (tmap2_shape _ _ _ _ E) as [Hr' Hc'].
    unfold relu. split; [by do 2 apply wf_tmap|].
    rewrite !nrows_tmap, !ncols_tmap. unfold _convert_labels_for_svm in *.
    rewrite nrows_tmap in *. rewrite ncols_tmap in *. split; congruence.
  - unfold SquaredHingeLoss.loss_terms.
    destruct (getattr self "margin") as [v|]; simpl; [|discriminate].
    destruct (tmap2 _ _ _) as [yx|] eqn:E; simpl; [|discriminate].
    destruct (as_real v) as [m|]; simpl; [|discriminate]. intros [= <-].
    pose proof (wf_tmap2 _ _ _ _ Hy Hi E) as Hyx.
    destruct (tmap2_Ok _ _ _ _ E) as (Hr & Hc & _).
    destruct (tmap2_shape _ _ _ _ E) as [Hr' Hc'].
    unfold relu. split; [by do 3 apply wf_tmap|].
    rewrite !nrows_tmap, !ncols_tmap. unfold _convert_labels_for_svm in *.
    rewrite nrows_tmap in *. rewrite ncols_tmap in *. split; congruence.
  - unfold BCEWithLogitsLoss.loss_terms,
      BCEWithLogitsLoss.binary_cross_entropy_with_logits.
    destruct (getattr self "weight") as [w|]; simpl; [|discriminate].
    destruct (getattr self "pos_weight") as [p|]; simpl; [|discriminate].
    destruct (same_shape target input); simpl; [|discriminate].
    destruct (tmap2 pair input target) as [xy|] eqn:E; simpl; [|discriminate].
    destruct (BCEWithLogitsLoss.class_weights _ p) as [ps|] eqn:Ep; simpl;
      [|discriminate].
    destruct (BCEWithLogitsLoss.class_weights _ w) as [ws|] eqn:Ew; simpl;
      [|discriminate].
    intros [= <-].
    pose proof (wf_tmap2 _ _ _ _ Hi Ht E) as Hxy.
    destruct (tmap2_shape _ _ _ _ E) as [Hr' Hc'].
    apply class_weights_length in Ep, Ew.
    split; [|split; [|reflexivity]].
    + unfold wf in *. simpl. apply Forall_fmap.
      eapply Forall_impl; [exact Hxy|]. intros r Hr. simpl in *.
      rewrite length_zip_with, length_zip. lia.
    + unfold nrows in *. simpl. rewrite length_fmap. exact Hr'.
  - unfold CosineEmbeddingLoss.loss_terms, where_.
    destruct (getattr self "pos_weight" ≫= as_real) as [pw|]; simpl;
      [|discriminate].
    destruct (getattr self "margin" ≫= as_real) as [m|]; simpl;
      [|discriminate].
    destruct (tmap2 Rmax _ _) as [neg|] eqn:En; simpl; [|discriminate].
    destruct (tmap2 pair _ _) as [ab|] eqn:Eab; simpl; [|discriminate].
    intros E.
    pose proof (wf_tmap2 _ _ _ _ (wf_tmap _ _ Hi) (wf_tmap _ _ Hi) En) as Hneg.
    pose proof (wf_tmap2 _ _ _ _ (wf_tmap _ _ Hi) Hneg Eab) as Hab.
    pose proof (wf_tmap2 _ _ _ _ (wf_tmap _ _ Ht) Hab E) as Hl.
    destruct (tmap2_Ok _ _ _ _ E) as (Hr & Hc & _).
    destruct (tmap2_shape _ _ _ _ E) as [Hr' Hc'].
    destruct (tmap2_shape _ _ _ _ Eab) as [Hr2 Hc2].
    rewrite nrows_tmap in *. rewrite ncols_tmap in *.
    split; [exact Hl|]. split; congruence.
Qed.

(** The hinge loss of an entry. *)
Lemma HingeLoss_terms_entry self v m input target :
  self !! "margin" = Some v -> as_real v = Ok m ->
  nrows target = nrows input -> ncols target = ncols input ->
  exists loss, HingeLoss.loss_terms self input target = Ok loss /\
    forall i j x t, tget input i j = Some x -> tget target i j = Some t ->
      tget loss i j = Some (Rmax 0 (m - (2 * t - 1) * x)).
Proof.
  intros Hv Hm Hr Hc. unfold HingeLoss.loss_terms, getattr. rewrite Hv. simpl.
  destruct (tmap2 Rmult (_convert_labels_for_svm target) input) as [yx|e] eqn:E.
  - simpl. rewrite Hm. simpl. eexists. split; [reflexivity|].
    intros i j x t Hx Ht. unfold relu. rewrite !tget_tmap.
    rewrite (tget_tmap2 _ _ _ _ i j E). unfold _convert_labels_for_svm.
    rewrite tget_tmap, Ht, Hx. reflexivity.
  - rewrite tmap2_same_shape in E; [discriminate | |].
    + unfold _convert_labels_for_svm. rewrite nrows_tmap. exact Hr.
    + exact Hc.
Qed.

(** C9: for a margin, a real input matrix and a target matrix of the same
    shape with entries in {0, 1}, the elementwise hinge loss exists and is,
    at every position, max(0, margin - y * input) for the label y = 2 *
    target - 1, which is -1 for target 0 and +1 for target 1; it is
    nonnegative at every position. *)
Theorem HingeLoss_terms_formula (self : gmap string value) (v : value)
  (m : R) (input target : tensor R) :
  self !! "margin" = Some v -> as_real v = Ok m ->
  wf input -> wf target ->
  nrows target = nrows input -> ncols target = ncols input ->
  (forall i j t, tget target i j = Some t -> t = 0%R \/ t = 1%R) ->
  exists loss, HingeLoss.loss_terms self input target = Ok loss /\
    nrows loss = nrows input /\ ncols loss = ncols input /\
    forall i j, i < nrows input -> j < ncols input ->
      exists x t y l,
        tget input i j = Some x /\ tget target i j = Some t /\
        y = (2 * t - 1)%R /\ (t = 0%R /\ y = (-1)%R \/ t = 1%R /\ y = 1%R) /\
        tget loss i j = Some l /\ l = Rmax 0 (m - y * x) /\ (0 <= l)%R.
Proof.
  intros Hv Hm Hi Ht Hr Hc Hbin.
  destruct (HingeLoss_terms_entry _ _ _ _ _ Hv Hm Hr Hc) as (loss & Hl & Hget).
  exists loss. split; [exact Hl|].
  destruct (loss_terms_wf CHinge _ _ _ _ Hi Ht Hl) as (_ & Hr' & Hc').
  split; [exact Hr'|]. split; [exact Hc'|].
  intros i j Hlti Hltj.
  destruct (tget_is_Some input i j Hi Hlti Hltj) as [x Hx].
  destruct (tget_is_Some target i j Ht) as [t Htg]; [lia | lia |].
  exists x, t, (2 * t - 1)%R, (Rmax 0 (m - (2 * t - 1) * x)).
  repeat split; auto.
  - destruct (Hbin i j t Htg) as [-> | ->]; [left | right]; split; lra.
  - apply relu_nonneg.
Qed.

Lemma HingeLoss_terms_formula_witness :
  exists loss,
    HingeLoss.loss_terms {[ "margin" := VFloat 1 ]}
      (Tensor 2 [[3; -2]]%R) (Tensor 2 [[0; 1]]%R) = Ok loss /\
    tget loss 0 0 = Some (Rmax 0 (1 - (-1) * 3)) /\
    tget loss 0 1 = Some (Rmax 0 (1 - 1 * -2)).
Proof.
  destruct (HingeLoss_terms_formula {[ "margin" := VFloat 1 ]} (VFloat 1) 1
              (Tensor 2 [[3; -2]]%R) (Tensor 2 [[0; 1]]%R))
    as (loss & Hl & _ & _ & Hget).
  - reflexivity.
  - reflexivity.
  - repeat constructor.
  - repeat constructor.
  - reflexivity.
  - reflexivity.
  - intros [|i] [|[|j]] t; simpl; intros [= <-]; auto.
  - exists loss. split; [exact Hl|]. split.
    + destruct (Hget 0 0) as (x & t & y & l & Hx & Ht & -> & _ & -> & -> & _);
        [unfold nrows; simpl; lia | simpl; lia |].
      injection Hx as <-. injection Ht as <-. do 2 f_equal. lra.
    + destruct (Hget 0 1) as (x & t & y & l & Hx & Ht & -> & _ & -> & -> & _);
        [unfold nrows; simpl; lia | simpl; lia |].
      injection Hx as <-. injection Ht as <-. do 2 f_equal. lra.
Defined.

(** C4: for a common margin and any input and target, the elementwise
    squared-hinge loss is the elementwise hinge loss squared at every
    position; where the hinge loss raises (a margin that is no number,
    unequal shapes) the squared-hinge loss raises the same exception. *)
Theorem SquaredHingeLoss_terms_is_square (self_h self_s : gmap string value)
  (input target : tensor R) :
  self_s !! "margin" = self_h !! "margin" ->
  match HingeLoss.loss_terms self_h input target with
  | Ok h =>
      exists s, SquaredHingeLoss.loss_terms self_s input target = Ok s /\
        nrows s = nrows h /\ ncols s = ncols h /\
        forall i j, tget s i j = (fun l => (l * l)%R) <$> tget h i j
  | Raise e => SquaredHingeLoss.loss_terms self_s input target = Raise e
  end.
Proof.
  intros Hm. unfold HingeLoss.loss_terms, SquaredHingeLoss.loss_terms, getattr.
  rewrite Hm. destruct (self_h !! "margin") as [v|]; simpl; [|reflexivity].
  destruct (tmap2 Rmult (_convert_labels_for_svm target) input) as [yx|e];
    simpl; [|reflexivity].
  destruct (as_real v) as [m|e]; simpl; [|reflexivity].
  eexists. split; [reflexivity|].
  split; [apply nrows_tmap|]. split; [reflexivity|].
  intros i j. rewrite tget_tmap.
  destruct (tget _ i j) as [l|]; simpl; [|reflexivity].
  f_equal. ring.
Qed.

Lemma SquaredHingeLoss_terms_is_square_witness :
  match HingeLoss.loss_terms {[ "margin" := VFloat 1; "pad_ind" := VNone ]}
          (Tensor 2 [[3; -2]]%R) (Tensor 2 [[0; 1]]%R) with
  | Ok h =>
      exists s,
        SquaredHingeLoss.loss_terms {[ "margin" := VFloat 1 ]}
          (Tensor 2 [[3; -2]]%R) (Tensor 2 [[0; 1]]%R) = Ok s /\
        nrows s = nrows h /\ ncols s = ncols h /\
        forall i j, tget s i j = (fun l => (l * l)%R) <$> tget h i j
  | Raise e =>
      SquaredHingeLoss.loss_terms {[ "margin" := VFloat 1 ]}
        (Tensor 2 [[3; -2]]%R) (Tensor 2 [[0; 1]]%R) = Raise e
  end.
Proof.
  apply (SquaredHingeLoss_terms_is_square
           {[ "margin" := VFloat 1; "pad_ind" := VNone ]}
           {[ "margin" := VFloat 1 ]}).
  reflexivity.
Defined.

(** The cosine-embedding loss of an entry. *)
Lemma CosineEmbeddingLoss_terms_entry self vp vm pw m input target :
  self !! "pos_weight" = Some vp -> as_real vp = Ok pw ->
  self !! "margin" = Some vm -> as_real vm = Ok m ->
  nrows target = nrows input -> ncols target = ncols input ->
  exists loss, CosineEmbeddingLoss.loss_terms self input target = Ok loss /\
    forall i j x t, tget input i j = Some x -> tget target i j = Some t ->
      tget loss i j =
      Some (if Rgtb t 0 then ((1 - x) * pw)%R else Rmax 0 (x - m)).
Proof.
  intros Hvp Hpw Hvm Hm Hr Hc.
  unfold CosineEmbeddingLoss.loss_terms, where_, getattr.
  rewrite Hvp, Hvm. simpl. rewrite Hpw, Hm. simpl.
  destruct (tmap2 Rmax _ _) as [neg|e] eqn:En; simpl.
  2: { rewrite tmap2_same_shape in En; [discriminate | |].
       - unfold zeros_like. rewrite !nrows_tmap. reflexivity.
       - reflexivity. }
  destruct (tmap2_shape _ _ _ _ En) as [Hrn Hcn].
  unfold zeros_like in Hrn, Hcn. rewrite nrows_tmap in Hrn.
  rewrite ncols_tmap in Hcn.
  destruct (tmap2 pair _ neg) as [ab|e] eqn:Eab; simpl.
  2: { rewrite tmap2_same_shape in Eab; [discriminate | |].
       - rewrite nrows_tmap. congruence.
       - rewrite ncols_tmap. congruence. }
  destruct (tmap2_shape _ _ _ _ Eab) as [Hra Hca].
  rewrite nrows_tmap in Hra. rewrite ncols_tmap in Hca.
  destruct (tmap2 _ (tmap _ target) ab) as [loss|e] eqn:E; simpl.
  2: { rewrite tmap2_same_shape in E; [discriminate | |].
       - rewrite nrows_tmap. congruence.
       - rewrite ncols_tmap. congruence. }
  exists loss. split; [reflexivity|].
  intros i j x t Hx Ht.
  rewrite (tget_tmap2 _ _ _ _ i j E), tget_tmap, Ht. simpl.
  rewrite (tget_tmap2 _ _ _ _ i j Eab), tget_tmap, Hx. simpl.
  rewrite (tget_tmap2 _ _ _ _ i j En). unfold zeros_like.
  rewrite !tget_tmap, Hx. simpl.
  destruct (Rgtb t 0); reflexivity.
Qed.

(** C8: a [CosineEmbeddingLoss] built without arguments has margin 0.8 (and
    positive weight 1).  For a margin, a positive weight, a real input
    matrix and a target matrix of the same shape, the elementwise loss
    exists and is, at every position, pos_weight * (1 - input) where target
    > 0 and max(0, input - margin) where target = 0; in particular it is 0
    where target = 1 and input = 1, and 0 where target = 0 and input <=
    margin. *)
Theorem CosineEmbeddingLoss_terms_formula :
  (exists self,
     CosineEmbeddingLoss.__init__ ∅ [] [] = Ok self /\
     self !! "margin" = Some (VFloat (8 / 10)) /\
     self !! "pos_weight" = Some (VFloat 1)) /\
  (forall (self : gmap string value) (vp vm : value) (pw m : R)
          (input target : tensor R),
     self !! "pos_weight" = Some vp -> as_real vp = Ok pw ->
     self !! "margin" = Some vm -> as_real vm = Ok m ->
     wf input -> wf target ->
     nrows target = nrows input -> ncols target = ncols input ->
     exists loss, CosineEmbeddingLoss.loss_terms self input target = Ok loss /\
       nrows loss = nrows input /\ ncols loss = ncols input /\
       forall i j, i < nrows input -> j < ncols input ->
         exists x t l,
           tget input i j = Some x /\ tget target i j = Some t /\
           tget loss i j = Some l /\
           ((0 < t)%R -> l = (pw * (1 - x))%R) /\
           (t = 0%R -> l = Rmax 0 (x - m)) /\
           (t = 1%R -> x = 1%R -> l = 0%R) /\
           (t = 0%R -> (x <= m)%R -> l = 0%R)).
Proof.
  split.
  - eexists. split; [reflexivity|]. split; reflexivity.
  - intros self vp vm pw m input target Hvp Hpw Hvm Hm Hi Ht Hr Hc.
    destruct (CosineEmbeddingLoss_terms_entry _ _ _ _ _ _ _ Hvp Hpw Hvm Hm Hr Hc)
      as (loss & Hl & Hget).
    exists loss. split; [exact Hl|].
    destruct (loss_terms_wf CCosineEmbedding _ _ _ _ Hi Ht Hl) as (_ & Hr' & Hc').
    split; [exact Hr'|]. split; [exact Hc'|].
    intros i j Hlti Hltj.
    destruct (tget_is_Some input i j Hi Hlti Hltj) as [x Hx].
    destruct (tget_is_Some target i j Ht) as [t Htg]; [lia | lia |].
    exists x, t. eexists. split; [exact Hx|]. split; [exact Htg|].
    split; [exact (Hget i j x t Hx Htg)|].
    unfold Rgtb. destruct (Rlt_dec 0 t) as [Hpos|Hneg].
    + split; [intros _; ring|]. split; [intros ->; lra|].
      split; [intros _ ->; ring | intros ->; lra].
    + split; [intros H; contradiction|]. split; [reflexivity|].
      split; [intros ->; lra|]. intros _ Hle. apply Rmax_left. lra.
Qed.

Lemma CosineEmbeddingLoss_terms_formula_witness :
  exists loss,
    CosineEmbeddingLoss.loss_terms
      {[ "margin" := VFloat (8 / 10); "pos_weight" := VFloat 1 ]}
      (Tensor 2 [[1; 1 / 2]]%R) (Tensor 2 [[1; 0]]%R) = Ok loss /\
    tget loss 0 0 = Some 0%R /\ tget loss 0 1 = Some 0%R.
Proof.
  destruct CosineEmbeddingLoss_terms_formula as [_ H].
  destruct (H {[ "margin" := VFloat (8 / 10); "pos_weight" := VFloat 1 ]}
              (VFloat 1) (VFloat (8 / 10)) 1%R (8 / 10)%R
              (Tensor 2 [[1; 1 / 2]]%R) (Tensor 2 [[1; 0]]%R))
    as (loss & Hl & _ & _ & Hget).
  - reflexivity.
  - reflexivity.
  - reflexivity.
  - reflexivity.
  - repeat constructor.
  - repeat constructor.
  - reflexivity.
  - reflexivity.
  - exists loss. split; [exact Hl|]. split.
    + destruct (Hget 0 0) as (x & t & l & Hx & Ht & -> & _ & _ & H1 & _);
        [unfold nrows; simpl; lia | simpl; lia |].
      injection Hx as <-. injection Ht as <-. f_equal. apply H1; reflexivity.
    + destruct (Hget 0 1) as (x & t & l & Hx & Ht & -> & _ & _ & _ & H0);
        [unfold nrows; simpl; lia | simpl; lia |].
      injection Hx as <-. injection Ht as <-. f_equal.
      apply H0; [reflexivity | lra].
Defined.

(** C6: with reduction 'none', for each of the four losses, any input and
    target, any mask and any padding index: the output has the shape of the
    elementwise loss; an entry where the mask is false is 0, an entry in the
    padding column is 0 whatever the mask says, and every other entry is the
    elementwise loss.  The call returns whenever the padding index is inside
    the width and the mask has the shape of the loss. *)
Theorem forward_none_masked_entries (c : loss_class)
  (self : gmap string value) (input target : tensor R)
  (mask : option (tensor bool)) (loss : tensor R) :
  self !! "reduction" = Some (VStr "none") ->
  loss_terms c self input target = Ok loss ->
  wf input -> wf target ->
  (forall m, mask = Some m -> wf m) ->
  ((self !! "pad_ind" = Some VNone \/
    exists z, self !! "pad_ind" = Some (VInt z) /\
              (- Z.of_nat (ncols loss) <= z < Z.of_nat (ncols loss))%Z) ->
   (forall m, mask = Some m -> nrows m = nrows loss /\ ncols m = ncols loss) ->
   is_ok (forward c self input target mask)) /\
  (forall v, forward c self input target mask = Ok v ->
     exists out, v = Mat out /\
       nrows out = nrows loss /\ ncols out = ncols loss /\
       forall i j x, tget loss i j = Some x ->
         exists o, tget out i j = Some o /\
           (forall m, mask = Some m -> tget m i j = Some false -> o = 0%R) /\
           (pad_column self (ncols loss) = Some j -> o = 0%R) /\
           (pad_column self (ncols loss) <> Some j ->
            (forall m, mask = Some m -> tget m i j = Some true) -> o = x)).
Proof.
  intros Hred Hl Hwi Hwt Hm.
  destruct (loss_terms_wf c _ _ _ _ Hwi Hwt Hl) as (Hwf & _ & _). split.
  - intros Hpad Hmask. eapply forward_total; eauto.
  - intros v Hv.
    destruct (forward_masked _ _ _ _ _ _ _ Hl Hwf Hm Hv)
      as (out & Hout & _ & Hr & Hc & Hget).
    rewrite (_reduce_none _ _ Hred) in Hout. injection Hout as <-.
    exists out. repeat split; auto.
    intros i j x Hx. eexists. split; [exact (Hget i j x Hx)|].
    unfold counted. repeat split.
    + intros m -> Hf. rewrite Hf. simpl. rewrite andb_false_r. reflexivity.
    + intros ->. rewrite bool_decide_eq_true_2 by reflexivity. reflexivity.
    + intros Hne Hmask. rewrite bool_decide_eq_false_2 by assumption. simpl.
      destruct mask as [m|]; [|reflexivity].
      rewrite (Hmask m eq_refl). reflexivity.
Qed.

Lemma forward_none_masked_entries_witness :
  is_ok (forward CHinge
           {[ "reduction" := VStr "none"; "pad_ind" := VInt 1;
              "margin" := VFloat 1 ]}
           (Tensor 2 [[3; -2]]%R) (Tensor 2 [[0; 1]]%R)
           (Some (Tensor 2 [[false; true]]))).
Proof.
  destruct (forward_none_masked_entries CHinge
              {[ "reduction" := VStr "none"; "pad_ind" := VInt 1;
                 "margin" := VFloat 1 ]}
              (Tensor 2 [[3; -2]]%R) (Tensor 2 [[0; 1]]%R)
              (Some (Tensor 2 [[false; true]]))
              (Tensor 2 [[Rmax 0 (1 - (2 * 0 - 1) * 3);
                          Rmax 0 (1 - (2 * 1 - 1) * -2)]]%R))
    as [Hok _].
  - reflexivity.
  - reflexivity.
  - repeat constructor.
  - repeat constructor.
  - intros m [= <-]. repeat constructor.
  - apply Hok.
    + right. exists 1%Z. split; [reflexivity | simpl; lia].
    + intros m [= <-]. split; reflexivity.
Defined.

(** ** The mean *)

(** With reduction 'mean' the sum of the entries that count is divided by
    the number of all entries of the loss. *)
Lemma forward_mean_value c self input target mask loss v :
  self !! "reduction" = Some (VStr "mean") ->
  loss_terms c self input target = Ok loss -> wf loss ->
  (forall m, mask = Some m -> wf m) ->
  forward c self input target mask = Ok v ->
  v = if bool_decide (numel loss = 0) then NaN
      else Scalar (vsum (surviving (pad_column self (ncols loss)) mask loss)
                   / INR (numel loss)).
Proof.
  intros Hred Hl Hwf Hm Hv.
  destruct (forward_masked _ _ _ _ _ _ _ Hl Hwf Hm Hv)
    as (out & Hout & Hwfo & Hr & Hc & Hget).
  rewrite (_reduce_mean _ _ Hred) in Hout. injection Hout as <-.
  unfold tmean, numel. rewrite Hr, Hc.
  case_bool_decide; [reflexivity|]. do 2 f_equal.
  unfold tsum.
  rewrite (rows_imap
             (fun i j x =>
                if counted (pad_column self (ncols loss)) mask i j
                then x else 0%R) loss out Hwf Hwfo Hr Hc Hget).
  apply (tsum_imap_counted (counted (pad_column self (ncols loss)) mask)).
Qed.

(** C2 (as the code has it): with reduction 'mean', for each of the four
    losses, any mask and any padding index, the returned scalar is the sum
    of the elementwise losses that survive masking divided by the number of
    all entries of the loss matrix (rows times columns), the masked and the
    padded ones included; for a matrix without entries it is NaN.  The call
    returns whenever the padding index is inside the width and the mask has
    the shape of the loss. *)
Theorem forward_mean_divides_by_numel (c : loss_class)
  (self : gmap string value) (input target : tensor R)
  (mask : option (tensor bool)) (loss : tensor R) :
  self !! "reduction" = Some (VStr "mean") ->
  loss_terms c self input target = Ok loss ->
  wf input -> wf target ->
  (forall m, mask = Some m -> wf m) ->
  ((self !! "pad_ind" = Some VNone \/
    exists z, self !! "pad_ind" = Some (VInt z) /\
              (- Z.of_nat (ncols loss) <= z < Z.of_nat (ncols loss))%Z) ->
   (forall m, mask = Some m -> nrows m = nrows loss /\ ncols m = ncols loss) ->
   is_ok (forward c self input target mask)) /\
  (forall v, forward c self input target mask = Ok v ->
     v = if bool_decide (nrows loss * ncols loss = 0) then NaN
         else Scalar (vsum (surviving (pad_column self (ncols loss)) mask loss)
                      / INR (nrows loss * ncols loss))).
Proof.
  intros Hred Hl Hwi Hwt Hm.
  destruct (loss_terms_wf c _ _ _ _ Hwi Hwt Hl) as (Hwf & _ & _). split.
  - intros Hpad Hmask. eapply forward_total; eauto.
  - intros v Hv. exact (forward_mean_value _ _ _ _ _ _ _ Hred Hl Hwf Hm Hv).
Qed.

Lemma forward_mean_divides_by_numel_witness :
  exists v,
    forward CHinge
      {[ "reduction" := VStr "mean"; "pad_ind" := VNone;
         "margin" := VFloat 1 ]}
      (Tensor 2 [[0; 0]]%R) (Tensor 2 [[0; 0]]%R)
      (Some (Tensor 2 [[true; false]])) = Ok v /\
    v = Scalar ((Rmax 0 (1 - (2 * 0 - 1) * 0) + 0) / INR 2).
Proof.
  destruct (forward_mean_divides_by_numel CHinge
              {[ "reduction" := VStr "mean"; "pad_ind" := VNone;
                 "margin" := VFloat 1 ]}
              (Tensor 2 [[0; 0]]%R) (Tensor 2 [[0; 0]]%R)
              (Some (Tensor 2 [[true; false]]))
              (Tensor 2 [[Rmax 0 (1 - (2 * 0 - 1) * 0);
                          Rmax 0 (1 - (2 * 0 - 1) * 0)]]%R))
    as [Hok Hv].
  - reflexivity.
  - reflexivity.
  - repeat constructor.
  - repeat constructor.
  - intros m [= <-]. repeat constructor.
  - destruct Hok as [v Hfw].
    + left. reflexivity.
    + intros m [= <-]. split; reflexivity.
    + exists v. split; [exact Hfw|]. exact (Hv v Hfw).
Defined.

(** C2, as the specification states it, fails: a default [HingeLoss] on a
    1 x 2 input of zeros with target zeros has the elementwise losses 1 and
    1; with the mask [true, false] one entry survives, so the mean over
    the unmasked entries would be 1 / 1 = 1, while [forward] returns
    (1 + 0) / 2. *)
Lemma forward_mean_counts_masked_entries :
  exists self loss v,
    HingeLoss.__init__ ∅ [] [] = Ok self /\
    HingeLoss.loss_terms self (Tensor 2 [[0; 0]]%R) (Tensor 2 [[0; 0]]%R)
      = Ok loss /\
    HingeLoss.forward self (Tensor 2 [[0; 0]]%R) (Tensor 2 [[0; 0]]%R)
      (Some (Tensor 2 [[true; false]])) = Ok (Scalar v) /\
    v = (1 / 2)%R /\
    mean_of_counted (pad_column self (ncols loss))
      (Some (Tensor 2 [[true; false]])) loss = 1%R /\
    v <> mean_of_counted (pad_column self (ncols loss))
           (Some (Tensor 2 [[true; false]])) loss.
Proof.
  assert (Rmax 0 (1 - (2 * 0 - 1) * 0) = 1%R) as Hone
    by (rewrite Rmax_right by lra; lra).
  pose (self :=
          setattr
            (setattr (setattr (Module__init__ ∅) "reduction" (VStr "mean"))
                     "pad_ind" VNone) "margin" (VFloat 1)).
  pose (loss := Tensor 2 [[Rmax 0 (1 - (2 * 0 - 1) * 0);
                           Rmax 0 (1 - (2 * 0 - 1) * 0)]]%R).
  pose (mask := Tensor 2 [[true; false]]).
  assert (mean_of_counted (pad_column self 2) (Some mask) loss = 1%R) as Hspec.
  { change (((Rmax 0 (1 - (2 * 0 - 1) * 0) + 0) / INR 1)%R = 1%R).
    rewrite Hone. simpl. lra. }
  assert (HingeLoss.loss_terms self (Tensor 2 [[0; 0]]%R)
            (Tensor 2 [[0; 0]]%R) = Ok loss) as Hl by reflexivity.
  exists self, loss, (1 / 2)%R.
  split; [reflexivity|]. split; [exact Hl|].
  split; [|split; [reflexivity|]; split].
  - destruct (forward_total CHinge self (Tensor 2 [[0; 0]]%R)
                (Tensor 2 [[0; 0]]%R) (Some mask) loss Hl) as [v Hv].
    + exists (VStr "mean"). reflexivity.
    + left. reflexivity.
    + intros m [= <-]. split; reflexivity.
    + etransitivity; [exact Hv|]. f_equal.
      rewrite (forward_mean_value CHinge self _ _ (Some mask) loss v
                 eq_refl Hl).
      * change (Scalar ((Rmax 0 (1 - (2 * 0 - 1) * 0) + 0) / INR 2)
                = Scalar (1 / 2)).
        rewrite Hone. simpl. f_equal. lra.
      * repeat constructor.
      * intros m [= <-]. repeat constructor.
      * exact Hv.
  - exact Hspec.
  - intros H.
    assert ((1 / 2)%R = 1%R) by (etransitivity; [exact H | exact Hspec]).
    lra.
Qed.

(** ** Samplers *)

Import Sampling.

(** An attribute assignment changes the dictionary of the object and
    nothing else. *)
Lemma set_attr_spec self name v st d :
  heap st !! self = Some d ->
  exists st',
    set_attr self name v st = Ok st' /\
    heap st' !! self = Some (<[name := v]> d) /\
    files st' = files st /\ rng_pos st' = rng_pos st /\
    rng_stream st' = rng_stream st.
Proof.
  intros Hd. unfold set_attr, get_dict. rewrite Hd.
  eexists. split; [reflexivity|]. simpl.
  split; [apply lookup_insert_eq | auto].
Qed.

Lemma get_attr_spec self name st d v :
  heap st !! self = Some d -> d !! name = Some v ->
  get_attr self name st = Ok v.
Proof.
  intros Hd Hv. unfold get_attr, get_dict, getattr. rewrite Hd. simpl.
  rewrite Hv. reflexivity.
Qed.

(** The attributes of a sampler after its initializer has run. *)
Lemma BaseSampler_new_dict args kwargs env st :
  bind_args BaseSampler.params args kwargs = Ok env ->
  exists st1,
    BaseSampler.new args kwargs st = Ok (next_ref st, st1) /\
    rng_pos st1 = rng_pos st /\ rng_stream st1 = rng_stream st /\
    files st1 = files st /\
    heap st1 !! next_ref st =
    Some (<["index" := VPartial np_random_randint
                         {[ "low" := VInt 0; "high" := param env "size" ]}]>
          (<["index" := VNone]>
           (<["replace" := param env "replace"]>
            (<["prob" := param env "prob"]>
             (<["num_samples" := param env "num_samples"]>
              (<["size" := param env "size"]> ∅)))))).
Proof.
  intros Hb. unfold BaseSampler.new, allocate, BaseSampler.__init__.
  rewrite Hb. simpl.
  set (self := next_ref st).
  set (st0 := State _ _ _ _ _).
  assert (heap st0 !! self = Some ∅) as H0 by apply lookup_insert_eq.
  destruct (set_attr_spec self "size" (param env "size") st0 _ H0)
    as (s1 & -> & H1 & F1 & P1 & R1). simpl.
  destruct (set_attr_spec self "num_samples" (param env "num_samples") s1 _ H1)
    as (s2 & -> & H2 & F2 & P2 & R2). simpl.
  destruct (set_attr_spec self "prob" (param env "prob") s2 _ H2)
    as (s3 & -> & H3 & F3 & P3 & R3). simpl.
  destruct (set_attr_spec self "replace" (param env "replace") s3 _ H3)
    as (s4 & -> & H4 & F4 & P4 & R4). simpl.
  destruct (set_attr_spec self "index" VNone s4 _ H4)
    as (s5 & -> & H5 & F5 & P5 & R5). simpl.
  unfold BaseSampler._construct.
  rewrite (get_attr_spec self "size" s5 _ (param env "size") H5)
    by (by simplify_map_eq).
  simpl.
  destruct (set_attr_spec self "index"
              (VPartial np_random_randint
                 {[ "low" := VInt 0; "high" := param env "size" ]}) s5 _ H5)
    as (s6 & -> & H6 & F6 & P6 & R6). simpl.
  exists s6. split; [reflexivity|].
  assert (rng_pos st0 = rng_pos st) as P0 by reflexivity.
  assert (rng_stream st0 = rng_stream st) as R0 by reflexivity.
  assert (files st0 = files st) as F0 by reflexivity.
  split; [congruence|]. split; [congruence|]. split; [congruence|].
  exact H6.
Qed.

(** What [np.random.randint] returns on a range and a size that [int64]
    holds: as many integers of the range as asked for, in a state in which
    only the generator has moved. *)
Lemma randint_spec low high size st :
  (int64_min <= low)%Z -> (high - 1 <= int64_max)%Z -> (low < high)%Z ->
  (0 <= size)%Z -> (8 * size <= int64_max)%Z ->
  exists indices st',
    randint low high size st = Ok (indices, st') /\
    length indices = Z.to_nat size /\
    (forall i, i ∈ indices -> (low <= i < high)%Z) /\
    heap st' = heap st /\ files st' = files st /\
    rng_stream st' = rng_stream st /\ rng_pos st <= rng_pos st'.
Proof.
  intros Hlow Hhigh Hlh Hsz Hmem. unfold randint.
  case_bool_decide as H0.
  - exists [], st. subst size. split; [reflexivity|].
    split; [reflexivity|]. split; [|auto].
    intros i Hi. by apply not_elem_of_nil in Hi.
  - rewrite !bool_decide_eq_false_2 by lia.
    eexists _, _. split; [reflexivity|]. split; [|split].
    + rewrite length_fmap. apply length_seq.
    + intros i (k & -> & _)%list_elem_of_fmap.
      pose proof (Z.mod_pos_bound (rng_stream st (rng_pos st + k)) (high - low)).
      lia.
    + simpl. repeat split; auto. lia.
Qed.

Lemma list_repeat_spec x n :
  length (list_repeat x n) = Z.to_nat n /\
  forall w, w ∈ list_repeat x n -> w = x.
Proof.
  unfold list_repeat. split.
  - apply length_replicate.
  - intros w Hw. apply elem_of_replicate in Hw. tauto.
Qed.

Lemma param_lookup env name v : env !! name = Some v -> param env name = v.
Proof. intros H. unfold param. rewrite H. reflexivity. Qed.

Lemma call_randint (s n : Z) st :
  (0 < s <= int64_max + 1)%Z -> (0 <= n)%Z -> (8 * n <= int64_max)%Z ->
  exists indices st',
    call (VPartial np_random_randint {[ "low" := VInt 0; "high" := VInt s ]})
         {[ "size" := VInt n ]} st
    = Ok (indices, st') /\
    length indices = Z.to_nat n /\
    (forall i, i ∈ indices -> (0 <= i < s)%Z) /\
    heap st' = heap st /\ files st' = files st /\
    rng_stream st' = rng_stream st /\ rng_pos st <= rng_pos st'.
Proof.
  intros Hs Hn Hmem.
  destruct (randint_spec 0 s n st) as (idx & st' & Hr & Hrest);
    [unfold int64_min; lia | lia | lia | exact Hn | exact Hmem |].
  exists idx, st'. split; [|exact Hrest]. unfold call.
  change (getattr ({[ "size" := VInt n ]} ∪
                   {[ "low" := VInt 0; "high" := VInt s ]}) "low")
    with (@Ok value (VInt 0)).
  change (getattr ({[ "size" := VInt n ]} ∪
                   {[ "low" := VInt 0; "high" := VInt s ]}) "high")
    with (@Ok value (VInt s)).
  change (getattr ({[ "size" := VInt n ]} ∪
                   {[ "low" := VInt 0; "high" := VInt s ]}) "size")
    with (@Ok value (VInt n)).
  simpl. exact Hr.
Qed.

(** One query of an object whose [index] draws from [[0, s)] and whose
    [num_samples] is n. *)
Lemma BaseSampler_query_once self d (s : Z) (n : nat) st :
  heap st !! self = Some d ->
  d !! "index"
  = Some (VPartial np_random_randint {[ "low" := VInt 0; "high" := VInt s ]}) ->
  d !! "num_samples" = Some (VInt (Z.of_nat n)) ->
  (0 < s <= int64_max + 1)%Z -> (8 * Z.of_nat n <= int64_max)%Z ->
  exists indices st',
    BaseSampler._query self st = Ok ((indices, replicate n 1%R), st') /\
    length indices = n /\
    (forall i, i ∈ indices -> (0 <= i < s)%Z) /\
    heap st' = heap st /\ files st' = files st /\
    rng_stream st' = rng_stream st /\ rng_pos st <= rng_pos st'.
Proof.
  intros Hd Hidx Hnum Hs Hmem.
  assert (0 <= Z.of_nat n)%Z as Hn by lia.
  destruct (call_randint s (Z.of_nat n) st Hs Hn Hmem)
    as (idx & st' & Hcall & Hlen & Hin & Hh & Hrest).
  rewrite Nat2Z.id in Hlen.
  exists idx, st'. split; [|auto]. unfold BaseSampler._query.
  rewrite (get_attr_spec _ "index" st _ _ Hd Hidx), mbind_Ok.
  rewrite (get_attr_spec _ "num_samples" st _ _ Hd Hnum), mbind_Ok.
  rewrite Hcall, mbind_Ok.
  rewrite <- Hh in Hd.
  rewrite (get_attr_spec _ "num_samples" st' _ _ Hd Hnum).
  unfold list_repeat. simpl. rewrite Nat2Z.id. reflexivity.
Qed.

(** C10 (within the integers of numpy): a [BaseSampler] constructed, with
    positional or keyword arguments, with a size s, 0 < s <= 2^63, and a
    number of samples n < 2^60 answers [query(1)], whatever the state of
    the random generator, with a pair: exactly n indices, each in
    [[0, s)], and exactly n weights, each 1.0. *)
Theorem BaseSampler_query_one (args : list value)
  (kwargs : list (string * value)) (env : gmap string value) (s : Z)
  (n : nat) (st : state) :
  bind_args BaseSampler.params args kwargs = Ok env ->
  env !! "size" = Some (VInt s) ->
  env !! "num_samples" = Some (VInt (Z.of_nat n)) ->
  (0 < s <= 2 ^ 63)%Z ->
  (Z.of_nat n < 2 ^ 60)%Z ->
  exists self st1 indices weights st2,
    BaseSampler.new args kwargs st = Ok (self, st1) /\
    BaseSampler.query self 1 st1
    = Ok (BaseSampler.One (indices, weights), st2) /\
    length indices = n /\
    (forall i, i ∈ indices -> (0 <= i < s)%Z) /\
    length weights = n /\
    (forall w, w ∈ weights -> w = 1%R).
Proof.
  intros Hb Hsize Hnum Hs Hn.
  destruct (BaseSampler_new_dict args kwargs env st Hb)
    as (st1 & Hnew & _ & _ & _ & Hd).
  rewrite !(param_lookup _ _ _ Hsize), (param_lookup _ _ _ Hnum) in Hd.
  destruct (BaseSampler_query_once (next_ref st) _ s n st1 Hd)
    as (idx & st2 & Hq & Hlen & Hin & _);
    [apply lookup_insert_eq | by simplify_map_eq
     | unfold int64_max; lia | unfold int64_max; lia |].
  exists (next_ref st), st1, idx, (replicate n 1%R), st2.
  split; [exact Hnew|]. split.
  - unfold BaseSampler.query. rewrite bool_decide_eq_true_2 by reflexivity.
    rewrite Hq. reflexivity.
  - split; [exact Hlen|]. split; [exact Hin|].
    split; [apply length_replicate|].
    intros w Hw. apply elem_of_replicate in Hw. tauto.
Qed.

Lemma BaseSampler_query_one_witness :
  exists self st1 indices weights st2,
    BaseSampler.new [VInt 10; VInt 5] []
      (State ∅ ∅ (fun k => Z.of_nat (7 * k + 3)) 0 0) = Ok (self, st1) /\
    BaseSampler.query self 1 st1
    = Ok (BaseSampler.One (indices, weights), st2) /\
    length indices = 5 /\
    (forall i, i ∈ indices -> (0 <= i < 10)%Z) /\
    length weights = 5 /\
    (forall w, w ∈ weights -> w = 1%R).
Proof.
  eapply (BaseSampler_query_one [VInt 10; VInt 5] [] _ 10 5).
  - reflexivity.
  - reflexivity.
  - reflexivity.
  - lia.
  - simpl. lia.
Defined.

(** C10, as the specification states it, fails outside the integers of
    numpy: a sampler of size 2^63 + 1 > 0 is constructed, and its
    [query(1)] raises [ValueError], the upper end of the range being no
    [int64]; so does that of a sampler whose number of samples, 2^60, is
    more than an array can hold. *)
Lemma BaseSampler_query_one_beyond_int64 :
  (exists self st1,
     BaseSampler.new [VInt (2 ^ 63 + 1); VInt 2] []
       (State ∅ ∅ (fun _ => 0%Z) 0 0) = Ok (self, st1) /\
     BaseSampler.query self 1 st1 = Raise ValueError) /\
  (exists self st1,
     BaseSampler.new [VInt 10; VInt (2 ^ 60)] []
       (State ∅ ∅ (fun _ => 0%Z) 0 0) = Ok (self, st1) /\
     BaseSampler.query self 1 st1 = Raise ValueError).
Proof.
  split; exists 0; eexists; (split; [vm_compute; reflexivity|]);
    vm_compute; reflexivity.
Qed.

(** [load] returns the state it was called in. *)
Lemma BaseSampler_load_frame self fname st st' :
  BaseSampler.load self fname st = Ok st' -> st' = st.
Proof.
  unfold BaseSampler.load. destruct (files st !! fname); [|discriminate].
  intros [= <-]. reflexivity.
Qed.

(** C3 (what the code does): after the configuration of one sampler was
    saved to a file, [load] from that file on another sampler returns
    without changing that sampler: the file holds the attributes that were
    saved, the loaded object keeps the attributes it had. *)
Theorem BaseSampler_load_keeps_attributes (a b : nat)
  (saved own : gmap string value) (fname : string) (st : state) :
  heap st !! a = Some saved ->
  heap st !! b = Some own ->
  exists st1 st2,
    BaseSampler.save a fname st = Ok st1 /\
    files st1 !! fname = Some (VDict saved) /\
    BaseSampler.load b fname st1 = Ok st2 /\
    get_dict b st2 = Ok own.
Proof.
  intros Ha Hb.
  exists (set_files (<[fname := VDict saved]> (files st)) st).
  exists (set_files (<[fname := VDict saved]> (files st)) st).
  split; [unfold BaseSampler.save, get_dict; rewrite Ha; reflexivity|].
  split; [apply lookup_insert_eq|].
  split.
  - unfold BaseSampler.load. simpl. rewrite lookup_insert_eq. reflexivity.
  - unfold get_dict. simpl. rewrite Hb. reflexivity.
Qed.

Lemma BaseSampler_load_keeps_attributes_witness :
  exists a st1 b st2 st3 st4,
    BaseSampler.new [VInt 10; VInt 5] [] (State ∅ ∅ (fun _ => 0%Z) 0 0)
    = Ok (a, st1) /\
    BaseSampler.new [VInt 3; VInt 2] [] st1 = Ok (b, st2) /\
    BaseSampler.save a "sampler.pkl" st2 = Ok st3 /\
    BaseSampler.load b "sampler.pkl" st3 = Ok st4 /\
    get_attr a "size" st4 = Ok (VInt 10) /\
    get_attr a "num_samples" st4 = Ok (VInt 5) /\
    get_attr b "size" st4 = Ok (VInt 3) /\
    get_attr b "num_samples" st4 = Ok (VInt 2).
Proof.
  exists 0. eexists. exists 1. eexists.
  assert (BaseSampler.new [VInt 10; VInt 5] []
            (State ∅ ∅ (fun _ => 0%Z) 0 0) = Ok (0, _)) as H1
    by (vm_compute; reflexivity).
  match type of H1 with _ = Ok (_, ?s1) =>
    assert (BaseSampler.new [VInt 3; VInt 2] [] s1 = Ok (1, _)) as H2
      by (vm_compute; reflexivity)
  end.
  match type of H2 with _ = Ok (_, ?s2) =>
    destruct (BaseSampler_load_keeps_attributes 0 1
                (default ∅ (heap s2 !! 0)) (default ∅ (heap s2 !! 1))
                "sampler.pkl" s2) as (st3 & st4 & Hsave & _ & Hload & Hown);
      [vm_compute; reflexivity | vm_compute; reflexivity |]
  end.
  exists st3, st4.
  split; [exact H1|]. split; [exact H2|].
  split; [exact Hsave|]. split; [exact Hload|].
  apply BaseSampler_load_frame in Hload. subst st4.
  unfold BaseSampler.save in Hsave. simpl in Hsave.
  injection Hsave as <-.
  repeat split; vm_compute; reflexivity.
Defined.

(** ** The triplet loss *)

Lemma argmax_from_lt i best xs :
  best.1 < i -> (argmax_from i best xs).1 < i + length xs.
Proof.
  revert i best. induction xs as [|x xs IH]; intros i best Hb; simpl.
  - lia.
  - specialize (IH (S i) (if Rlt_dec best.2 x then (i, x) else best)).
    destruct (Rlt_dec best.2 x); simpl in IH; lia.
Qed.

Lemma argmax_default_lt xs n :
  length xs <= n -> 0 < n -> default 0 (argmax xs) < n.
Proof.
  intros Hlen Hn. destruct xs as [|x xs]; simpl; [exact Hn|].
  pose proof (argmax_from_lt 1 (0, x) xs). simpl in *. lia.
Qed.

Lemma index_rows_total t idx :
  Forall (fun i => i < nrows t) idx -> exists rs, index_rows t idx = Ok rs.
Proof.
  induction 1 as [|i idx Hi _ [rs IH]]; simpl; [eauto|].
  destruct (lookup_lt_is_Some_2 (rows t) i Hi) as [r ->].
  rewrite IH. simpl. eauto.
Qed.

Lemma nrows_transpose t : nrows (transpose t) = ncols t.
Proof. unfold nrows, transpose. simpl. rewrite length_fmap. apply length_seq. Qed.

(** A row of [a @ b] has one entry per column of [b]. *)
Lemma matmul_rows a b c :
  matmul a b = Ok c ->
  nrows c = nrows a /\ ncols c = ncols b /\
  Forall (fun r => length r = ncols b) (rows c).
Proof.
  unfold matmul. case_bool_decide; [|discriminate]. intros [= <-].
  split; [unfold nrows; simpl; apply length_fmap|]. split; [reflexivity|].
  simpl. apply Forall_fmap, Forall_forall. intros r _. simpl.
  rewrite length_fmap. apply nrows_transpose.
Qed.

(** The initializer assigns neither [_eps] nor [_reduction]. *)
Lemma TripletMarginLossOHNM_init_attributes args kwargs self :
  TripletMarginLossOHNM.__init__ ∅ args kwargs = Ok self ->
  self !! "_eps" = None /\ self !! "_reduction" = None /\
  is_Some (self !! "reduction") /\ is_Some (self !! "margin").
Proof.
  unfold TripletMarginLossOHNM.__init__.
  destruct (bind_args TripletMarginLossOHNM.params args kwargs) as [env|e];
    [|discriminate].
  rewrite mbind_Ok.
  change (_Loss.__init__ ∅ [] [("reduction", param env "reduction")])
    with (@Ok (gmap string value)
            (setattr
               (setattr (Module__init__ ∅) "reduction" (param env "reduction"))
               "pad_ind" VNone)).
  rewrite mbind_Ok. intros [= <-]. unfold setattr, Module__init__, setattr.
  repeat split; try (eexists; by simplify_map_eq); by simplify_map_eq.
Qed.

(** C1 (what the code does): [forward] of a constructed
    [TripletMarginLossOHNM] never returns a loss.  It raises on every
    input; when the shapes are those of the call contract (documents and
    labels of the same width, a selection row per document and a selection
    column per label, at least one label) the exception is the
    [AttributeError] of reading [self._eps], which no initializer assigns. *)
Theorem TripletMarginLossOHNM_forward_raises (args : list value)
  (kwargs : list (string * value)) (self : gmap string value)
  (doc_embeddings label_embeddings selection : tensor R) :
  TripletMarginLossOHNM.__init__ ∅ args kwargs = Ok self ->
  (exists e,
     TripletMarginLossOHNM.forward self doc_embeddings label_embeddings
       selection = Raise e) /\
  (ncols doc_embeddings = ncols label_embeddings ->
   nrows selection = nrows doc_embeddings ->
   ncols selection = nrows label_embeddings ->
   nrows label_embeddings <> 0 ->
   TripletMarginLossOHNM.forward self doc_embeddings label_embeddings
     selection = Raise (AttributeError "_eps")).
Proof.
  intros Hinit.
  destruct (TripletMarginLossOHNM_init_attributes _ _ _ Hinit) as (Heps & _).
  assert (getattr self "_eps" = Raise (AttributeError "_eps")) as Hget
    by (unfold getattr; rewrite Heps; reflexivity).
  unfold TripletMarginLossOHNM.forward. split.
  - destruct (matmul _ _) as [scores|e]; [rewrite mbind_Ok | eauto].
    destruct (tmap2 _ _ _) as [sims|e]; [rewrite mbind_Ok | eauto].
    destruct (topk1_indices _) as [idx|e]; [rewrite mbind_Ok | eauto].
    destruct (index_rows _ _) as [negs|e]; [rewrite mbind_Ok | eauto].
    rewrite Hget. eauto.
  - intros Hw Hr Hc Hn.
    destruct (matmul doc_embeddings (transpose label_embeddings))
      as [scores|e] eqn:Em.
    2: { unfold matmul in Em. rewrite nrows_transpose in Em.
         rewrite bool_decide_eq_true_2 in Em by exact Hw. discriminate. }
    destruct (matmul_rows _ _ _ Em) as (Hsr & Hsc & Hsl).
    change (ncols (transpose label_embeddings))
      with (nrows label_embeddings) in Hsc, Hsl.
    rewrite mbind_Ok.
    destruct (tmap2 Rmin scores _) as [sims|e] eqn:Et.
    2: { rewrite tmap2_same_shape in Et; [discriminate | |].
         - rewrite nrows_tmap. congruence.
         - rewrite ncols_tmap. congruence. }
    destruct (tmap2_Ok _ _ _ _ Et) as (_ & _ & Hs).
    destruct (tmap2_shape _ _ _ _ Et) as [_ Hsimc].
    rewrite mbind_Ok. unfold topk1_indices.
    rewrite bool_decide_eq_false_2 by congruence.
    rewrite mbind_Ok.
    destruct (index_rows_total label_embeddings
                ((fun r => default 0 (argmax r)) <$> rows sims)) as [negs ->].
    { apply Forall_fmap, Forall_forall. intros r Hin. simpl.
      apply argmax_default_lt; [|lia].
      subst sims. simpl in Hin.
      apply list_elem_of_lookup in Hin as [i Hi].
      apply lookup_zip_with_Some in Hi as (rs & rt & -> & Hrs & _).
      rewrite length_zip_with.
      rewrite Forall_forall in Hsl.
      rewrite <- (Hsl rs) by (eapply list_elem_of_lookup_2, Hrs). lia. }
    rewrite mbind_Ok. rewrite Hget. reflexivity.
Qed.

Lemma TripletMarginLossOHNM_forward_raises_witness :
  exists self,
    TripletMarginLossOHNM.__init__ ∅ [] [] = Ok self /\
    TripletMarginLossOHNM.forward self
      (Tensor 2 [[1; 0]; [0; 1]]%R) (Tensor 2 [[1; 0]; [0; 1]]%R)
      (Tensor 2 [[1; 0]; [0; 1]]%R)
    = Raise (AttributeError "_eps").
Proof.
  eexists. split; [reflexivity|].
  apply (TripletMarginLossOHNM_forward_raises [] []);
    [reflexivity | reflexivity | reflexivity | reflexivity |].
  unfold nrows. simpl. lia.
Defined.

(** * Further properties of the losses *)

Lemma _mask_at_pad_shape self loss l1 :
  _mask_at_pad self loss = Ok l1 ->
  nrows l1 = nrows loss /\ ncols l1 = ncols loss.
Proof.
  unfold _mask_at_pad, getattr.
  destruct (self !! "pad_ind") as [v|]; simpl; [|discriminate].
  destruct v; try discriminate.
  - intros [= <-]. auto.
  - destruct (normalize_index (ncols loss) z) as [j|e]; simpl; [|discriminate].
    intros [= <-]. split; [|reflexivity].
    unfold nrows, set_column. simpl. apply length_fmap.
Qed.

Lemma _mask_at_pad_total self loss :
  (self !! "pad_ind" = Some VNone \/
   exists z, self !! "pad_ind" = Some (VInt z) /\
             (- Z.of_nat (ncols loss) <= z < Z.of_nat (ncols loss))%Z) ->
  exists l1, _mask_at_pad self loss = Ok l1.
Proof.
  intros Hpad.
  destruct (masking_total self loss None Hpad) as (l1 & _ & H1 & _);
    [discriminate | eauto].
Qed.

(** The elementwise loss exists only for an input and a target of one
    shape. *)
Lemma loss_terms_same_shape c self input target loss :
  loss_terms c self input target = Ok loss ->
  nrows target = nrows input /\ ncols target = ncols input.
Proof.
  destruct c; simpl.
  - unfold HingeLoss.loss_terms.
    destruct (getattr self "margin") as [v|]; simpl; [|discriminate].
    destruct (tmap2 _ _ _) as [yx|] eqn:E; simpl; [|discriminate].
    intros _. destruct (tmap2_Ok _ _ _ _ E) as (Hr & Hc & _).
    unfold _convert_labels_for_svm in *.
    rewrite nrows_tmap in Hr. rewrite ncols_tmap in Hc. auto.
  - unfold SquaredHingeLoss.loss_terms.
    destruct (getattr self "margin") as [v|]; simpl; [|discriminate].
    destruct (tmap2 _ _ _) as [yx|] eqn:E; simpl; [|discriminate].
    intros _. destruct (tmap2_Ok _ _ _ _ E) as (Hr & Hc & _).
    unfold _convert_labels_for_svm in *.
    rewrite nrows_tmap in Hr. rewrite ncols_tmap in Hc. auto.
  - unfold BCEWithLogitsLoss.loss_terms,
      BCEWithLogitsLoss.binary_cross_entropy_with_logits.
    destruct (getattr self "weight") as [w|]; simpl; [|discriminate].
    destruct (getattr self "pos_weight") as [p|]; simpl; [|discriminate].
    destruct (same_shape target input); simpl; [|discriminate].
    destruct (tmap2 pair input target) as [xy|] eqn:E; simpl; [|discriminate].
    intros _. destruct (tmap2_Ok _ _ _ _ E) as (Hr & Hc & _). auto.
  - unfold CosineEmbeddingLoss.loss_terms, where_.
    destruct (getattr self "pos_weight" ≫= as_real) as [pw|]; simpl;
      [|discriminate].
    destruct (getattr self "margin" ≫= as_real) as [m|]; simpl;
      [|discriminate].
    destruct (tmap2 Rmax _ _) as [neg|] eqn:En; simpl; [|discriminate].
    destruct (tmap2 pair _ _) as [ab|] eqn:Eab; simpl; [|discriminate].
    intros E.
    destruct (tmap2_Ok _ _ _ _ E) as (Hr & Hc & _).
    destruct (tmap2_shape _ _ _ _ Eab) as [Hr2 Hc2].
    rewrite nrows_tmap in Hr. rewrite nrows_tmap in Hr2.
    rewrite ncols_tmap in Hc. rewrite ncols_tmap in Hc2.
    split; congruence.
Qed.

Lemma forward_terms_raise c self input target mask e :
  loss_terms c self input target = Raise e ->
  forward c self input target mask = Raise e.
Proof. intros H. rewrite forward_unfold, H. reflexivity. Qed.

(** X1: when the padding index is a 64-bit integer outside
    [-width, width), each of the four [forward] methods raises [IndexError]
    once the elementwise loss is computed, whatever the mask and the
    reduction are. *)
Theorem forward_pad_index_out_of_range (c : loss_class)
  (self : gmap string value) (input target : tensor R)
  (mask : option (tensor bool)) (loss : tensor R) (z : Z) :
  loss_terms c self input target = Ok loss ->
  wf input -> wf target ->
  self !! "pad_ind" = Some (VInt z) ->
  (- 2 ^ 63 <= z < 2 ^ 63)%Z ->
  (z < - Z.of_nat (ncols input) \/ Z.of_nat (ncols input) <= z)%Z ->
  forward c self input target mask = Raise IndexError.
Proof.
  intros Hl Hwi Hwt Hp H64 Hz.
  destruct (loss_terms_wf c _ _ _ _ Hwi Hwt Hl) as (_ & _ & Hc).
  rewrite forward_unfold, Hl, mbind_Ok.
  unfold _mask_at_pad, getattr. rewrite Hp, mbind_Ok.
  unfold normalize_index. rewrite Hc.
  rewrite !bool_decide_eq_false_2 by lia.
  rewrite bool_decide_eq_true_2 by (unfold int64_min, int64_max; lia).
  reflexivity.
Qed.

Lemma forward_pad_index_out_of_range_witness :
  forward CHinge
    {[ "reduction" := VStr "mean"; "pad_ind" := VInt 2; "margin" := VFloat 1 ]}
    (Tensor 2 [[3; -2]]%R) (Tensor 2 [[0; 1]]%R) None
  = Raise IndexError.
Proof.
  apply (forward_pad_index_out_of_range CHinge _ _ _ None
           (Tensor 2 [[Rmax 0 (1 - (2 * 0 - 1) * 3);
                       Rmax 0 (1 - (2 * 1 - 1) * -2)]]%R) 2).
  - reflexivity.
  - repeat constructor.
  - repeat constructor.
  - reflexivity.
  - lia.
  - simpl. lia.
Defined.

(** X2: a negative padding index counts from the last column: with
    reduction 'none' and a padding index z in [-width, 0), every entry of
    column width + z of the output is 0. *)
Theorem forward_negative_pad_index (c : loss_class)
  (self : gmap string value) (input target : tensor R)
  (mask : option (tensor bool)) (loss out : tensor R) (z : Z) :
  self !! "reduction" = Some (VStr "none") ->
  loss_terms c self input target = Ok loss ->
  wf input -> wf target ->
  (forall m, mask = Some m -> wf m) ->
  self !! "pad_ind" = Some (VInt z) ->
  (- Z.of_nat (ncols input) <= z < 0)%Z ->
  forward c self input target mask = Ok (Mat out) ->
  forall i, i < nrows input ->
    tget out i (Z.to_nat (z + Z.of_nat (ncols input))) = Some 0%R.
Proof.
  intros Hred Hl Hwi Hwt Hm Hp Hz Hfw i Hi.
  destruct (loss_terms_wf c _ _ _ _ Hwi Hwt Hl) as (Hwf & Hr & Hc).
  destruct (forward_masked _ _ _ _ _ _ _ Hl Hwf Hm Hfw)
    as (out' & Hout & _ & _ & _ & Hget).
  rewrite (_reduce_none _ _ Hred) in Hout. injection Hout as ->.
  set (j := Z.to_nat (z + Z.of_nat (ncols input))).
  assert (pad_column self (ncols loss) = Some j) as Hpad.
  { unfold pad_column, normalize_index. rewrite Hp, Hc.
    rewrite bool_decide_eq_false_2 by lia.
    rewrite bool_decide_eq_true_2 by lia. reflexivity. }
  destruct (tget_is_Some loss i j Hwf) as [x Hx]; [lia | unfold j; lia |].
  rewrite (Hget i j x Hx). unfold counted.
  rewrite Hpad, bool_decide_eq_true_2 by reflexivity. reflexivity.
Qed.

Lemma forward_negative_pad_index_witness :
  tget (Tensor 2 [[Rmax 0 (1 - (2 * 0 - 1) * 3); 0]]%R) 0 1 = Some 0%R.
Proof.
  apply (forward_negative_pad_index CHinge
           {[ "reduction" := VStr "none"; "pad_ind" := VInt (-1);
              "margin" := VFloat 1 ]}
           (Tensor 2 [[3; -2]]%R) (Tensor 2 [[0; 1]]%R) None
           (Tensor 2 [[Rmax 0 (1 - (2 * 0 - 1) * 3);
                       Rmax 0 (1 - (2 * 1 - 1) * -2)]]%R)
           (Tensor 2 [[Rmax 0 (1 - (2 * 0 - 1) * 3); 0]]%R) (-1) ).
  - reflexivity.
  - reflexivity.
  - repeat constructor.
  - repeat constructor.
  - discriminate.
  - reflexivity.
  - simpl. lia.
  - reflexivity.
  - unfold nrows. simpl. lia.
Defined.

(** X3: when the shapes of the target and the input cannot be combined
    (in some dimension their sizes differ and neither is 1), none of the
    four [forward] methods returns a loss: each raises, and the two hinge
    losses raise the shape error of the elementwise product as soon as the
    margin is read. *)
Theorem forward_shape_mismatch_raises (c : loss_class)
  (self : gmap string value) (input target : tensor R)
  (mask : option (tensor bool)) :
  (nrows target <> nrows input /\ nrows target <> 1 /\ nrows input <> 1) \/
  (ncols target <> ncols input /\ ncols target <> 1 /\ ncols input <> 1) ->
  (exists e, forward c self input target mask = Raise e) /\
  (is_Some (self !! "margin") -> c = CHinge \/ c = CSquaredHinge ->
   forward c self input target mask = Raise RuntimeError).
Proof.
  intros Hshape.
  assert (nrows target <> nrows input \/ ncols target <> ncols input)
    as Hne by tauto.
  split.
  - destruct (loss_terms c self input target) as [loss|e] eqn:Hl.
    + apply loss_terms_same_shape in Hl. destruct Hne; tauto.
    + exists e. by apply forward_terms_raise.
  - intros [v Hv] Hc. apply forward_terms_raise.
    assert (tmap2 Rmult (_convert_labels_for_svm target) input
            = Raise RuntimeError) as Ht.
    { unfold tmap2.
      destruct (same_shape _ input) eqn:E; [|reflexivity].
      apply same_shape_true in E as [Hr Hcol].
      unfold _convert_labels_for_svm in Hr, Hcol.
      rewrite nrows_tmap in Hr. rewrite ncols_tmap in Hcol.
      destruct Hne; tauto. }
    destruct Hc as [-> | ->]; simpl;
      [unfold HingeLoss.loss_terms | unfold SquaredHingeLoss.loss_terms];
      unfold getattr; rewrite Hv, mbind_Ok, Ht; reflexivity.
Qed.

Lemma forward_shape_mismatch_raises_witness :
  forward CHinge
    {[ "reduction" := VStr "mean"; "pad_ind" := VNone; "margin" := VFloat 1 ]}
    (Tensor 2 [[3; -2]]%R) (Tensor 3 [[0; 1; 0]]%R) None
  = Raise RuntimeError.
Proof.
  apply (forward_shape_mismatch_raises CHinge).
  - right. simpl. lia.
  - eexists. reflexivity.
  - left. reflexivity.
Defined.

(** X4: a mask whose shape cannot be combined with that of the input (in
    some dimension their sizes differ and neither is 1) makes each of the
    four [forward] methods raise the shape error of [masked_fill], once the
    elementwise loss is computed and the padding column, if any, is set. *)
Theorem forward_mask_shape_mismatch_raises (c : loss_class)
  (self : gmap string value) (input target : tensor R) (m : tensor bool)
  (loss : tensor R) :
  loss_terms c self input target = Ok loss ->
  wf input -> wf target ->
  (self !! "pad_ind" = Some VNone \/
   exists z, self !! "pad_ind" = Some (VInt z) /\
             (- Z.of_nat (ncols input) <= z < Z.of_nat (ncols input))%Z) ->
  (nrows m <> nrows input /\ nrows m <> 1 /\ nrows input <> 1) \/
  (ncols m <> ncols input /\ ncols m <> 1 /\ ncols input <> 1) ->
  forward c self input target (Some m) = Raise RuntimeError.
Proof.
  intros Hl Hwi Hwt Hpad Hshape.
  destruct (loss_terms_wf c _ _ _ _ Hwi Hwt Hl) as (_ & Hr & Hc).
  rewrite <- Hc in Hpad.
  destruct (_mask_at_pad_total self loss Hpad) as [l1 H1].
  destruct (_mask_at_pad_shape _ _ _ H1) as [Hr1 Hc1].
  rewrite forward_unfold, Hl, mbind_Ok, H1, mbind_Ok.
  unfold _mask, masked_fill, tmap2.
  destruct (same_shape l1 (tmap negb m)) eqn:E; [|reflexivity].
  apply same_shape_true in E as [Hr' Hc'].
  rewrite nrows_tmap in Hr'. rewrite ncols_tmap in Hc'.
  destruct Hshape as [(H & _ & _) | (H & _ & _)]; [lia | congruence].
Qed.

Lemma forward_mask_shape_mismatch_raises_witness :
  forward CHinge
    {[ "reduction" := VStr "mean"; "pad_ind" := VNone; "margin" := VFloat 1 ]}
    (Tensor 2 [[3; -2]]%R) (Tensor 2 [[0; 1]]%R)
    (Some (Tensor 3 [[true; false; true]]))
  = Raise RuntimeError.
Proof.
  apply (forward_mask_shape_mismatch_raises CHinge _ _ _ _
           (Tensor 2 [[Rmax 0 (1 - (2 * 0 - 1) * 3);
                       Rmax 0 (1 - (2 * 1 - 1) * -2)]]%R)).
  - reflexivity.
  - repeat constructor.
  - repeat constructor.
  - left. reflexivity.
  - right. simpl. lia.
Defined.

(** The sum of the masked loss is the sum of the entries that count. *)
Lemma forward_masked_sum c self input target mask loss v :
  loss_terms c self input target = Ok loss -> wf loss ->
  (forall m, mask = Some m -> wf m) ->
  forward c self input target mask = Ok v ->
  exists out,
    _reduce self out = Ok v /\
    nrows out = nrows loss /\ ncols out = ncols loss /\
    tsum out = vsum (surviving (pad_column self (ncols loss)) mask loss).
Proof.
  intros Hl Hwf Hm Hv.
  destruct (forward_masked _ _ _ _ _ _ _ Hl Hwf Hm Hv)
    as (out & Hout & Hwfo & Hr & Hc & Hget).
  exists out. repeat split; auto. unfold tsum.
  rewrite (rows_imap
             (fun i j x =>
                if counted (pad_column self (ncols loss)) mask i j
                then x else 0%R) loss out Hwf Hwfo Hr Hc Hget).
  apply (tsum_imap_counted (counted (pad_column self (ncols loss)) mask)).
Qed.

Lemma _reduce_sum self s out :
  self !! "reduction" = Some (VStr s) -> s <> "none" -> s <> "mean" ->
  _reduce self out = Ok (Scalar (tsum out)).
Proof.
  intros H Hnone Hmean. unfold _reduce, getattr. rewrite H. simpl.
  rewrite !bool_decide_eq_false_2 by assumption. reflexivity.
Qed.

(** X5: with reduction 'sum' (or any string but 'none' and 'mean') each of
    the four [forward] methods returns the sum of the elementwise losses of
    the entries that are unmasked and outside the padding column. *)
Theorem forward_sum_value (c : loss_class) (self : gmap string value)
  (s : string) (input target : tensor R) (mask : option (tensor bool))
  (loss : tensor R) (v : tvalue) :
  self !! "reduction" = Some (VStr s) -> s <> "none" -> s <> "mean" ->
  loss_terms c self input target = Ok loss ->
  wf input -> wf target ->
  (forall m, mask = Some m -> wf m) ->
  forward c self input target mask = Ok v ->
  v = Scalar (vsum (surviving (pad_column self (ncols loss)) mask loss)).
Proof.
  intros Hred Hnone Hmean Hl Hwi Hwt Hm Hv.
  destruct (loss_terms_wf c _ _ _ _ Hwi Hwt Hl) as (Hwf & _ & _).
  destruct (forward_masked_sum _ _ _ _ _ _ _ Hl Hwf Hm Hv)
    as (out & Hout & _ & _ & Hsum).
  rewrite (_reduce_sum _ _ _ Hred Hnone Hmean) in Hout.
  injection Hout as <-. rewrite Hsum. reflexivity.
Qed.

Lemma forward_sum_value_witness :
  Scalar (Rmax 0 (1 - (2 * 0 - 1) * 0) + (0 + 0) + 0)
  = Scalar (vsum (surviving
                    (pad_column
                       {[ "reduction" := VStr "sum"; "pad_ind" := VNone;
                          "margin" := VFloat 1 ]} 2)
                    (Some (Tensor 2 [[true; false]]))
                    (Tensor 2 [[Rmax 0 (1 - (2 * 0 - 1) * 0);
                                Rmax 0 (1 - (2 * 0 - 1) * 0)]]%R))).
Proof.
  apply (forward_sum_value CHinge
           {[ "reduction" := VStr "sum"; "pad_ind" := VNone;
              "margin" := VFloat 1 ]} "sum"
           (Tensor 2 [[0; 0]]%R) (Tensor 2 [[0; 0]]%R)
           (Some (Tensor 2 [[true; false]]))
           (Tensor 2 [[Rmax 0 (1 - (2 * 0 - 1) * 0);
                       Rmax 0 (1 - (2 * 0 - 1) * 0)]]%R)
           (Scalar (Rmax 0 (1 - (2 * 0 - 1) * 0) + (0 + 0) + 0))).
  - reflexivity.
  - discriminate.
  - discriminate.
  - reflexivity.
  - repeat constructor.
  - repeat constructor.
  - intros m [= <-]. repeat constructor.
  - reflexivity.
Defined.

(** The elementwise loss and the padding do not read the reduction. *)
Lemma loss_terms_reduction c self r input target :
  loss_terms c (<["reduction" := r]> self) input target
  = loss_terms c self input target.
Proof.
  destruct c; simpl;
    unfold HingeLoss.loss_terms, SquaredHingeLoss.loss_terms,
      BCEWithLogitsLoss.loss_terms, CosineEmbeddingLoss.loss_terms, getattr;
    rewrite !lookup_insert_ne by discriminate; reflexivity.
Qed.

Lemma _mask_at_pad_reduction self r loss :
  _mask_at_pad (<["reduction" := r]> self) loss = _mask_at_pad self loss.
Proof.
  unfold _mask_at_pad, getattr.
  rewrite lookup_insert_ne by discriminate. reflexivity.
Qed.

(** X6: the two scalar reductions agree up to the number of entries: when
    [forward] with reduction 'sum' (or any string but 'none' and 'mean')
    returns a total on an input with at least one entry, the same object
    with its reduction set to 'mean' returns that total divided by rows
    times columns of the input. *)
Theorem forward_mean_is_sum_over_numel (c : loss_class)
  (self : gmap string value) (s : string) (input target : tensor R)
  (mask : option (tensor bool)) (total : R) :
  self !! "reduction" = Some (VStr s) -> s <> "none" -> s <> "mean" ->
  wf input -> wf target ->
  nrows input * ncols input <> 0 ->
  forward c self input target mask = Ok (Scalar total) ->
  forward c (<["reduction" := VStr "mean"]> self) input target mask
  = Ok (Scalar (total / INR (nrows input * ncols input))).
Proof.
  intros Hred Hnone Hmean Hwi Hwt Hne Hfw.
  rewrite forward_unfold in Hfw. rewrite forward_unfold.
  rewrite loss_terms_reduction.
  destruct (loss_terms c self input target) as [loss|e] eqn:Hl;
    [|discriminate].
  destruct (loss_terms_wf c _ _ _ _ Hwi Hwt Hl) as (_ & Hr & Hc).
  rewrite mbind_Ok in Hfw. rewrite mbind_Ok, _mask_at_pad_reduction.
  destruct (_mask_at_pad self loss) as [l1|e] eqn:H1; [|discriminate].
  destruct (_mask_at_pad_shape _ _ _ H1) as [Hr1 Hc1].
  rewrite mbind_Ok in Hfw. rewrite mbind_Ok.
  change (_mask (<["reduction" := VStr "mean"]> self) l1 mask)
    with (_mask self l1 mask).
  destruct (_mask self l1 mask) as [l2|e] eqn:H2; [|discriminate].
  rewrite mbind_Ok in Hfw. rewrite mbind_Ok.
  assert (nrows l2 = nrows l1 /\ ncols l2 = ncols l1) as [Hr2 Hc2].
  { unfold _mask, masked_fill in H2. destruct mask as [m|].
    - exact (tmap2_shape _ _ _ _ H2).
    - injection H2 as <-. auto. }
  rewrite (_reduce_sum _ _ _ Hred Hnone Hmean) in Hfw.
  injection Hfw as <-.
  unfold _reduce, getattr. rewrite lookup_insert_eq, mbind_Ok. simpl.
  unfold tmean, numel. rewrite Hr2, Hc2, Hr1, Hc1, Hr, Hc.
  rewrite bool_decide_eq_false_2 by exact Hne. reflexivity.
Qed.

Lemma forward_mean_is_sum_over_numel_witness :
  forward CHinge
    (<["reduction" := VStr "mean"]>
       {[ "reduction" := VStr "sum"; "pad_ind" := VNone;
          "margin" := VFloat 1 ]})
    (Tensor 2 [[0; 0]]%R) (Tensor 2 [[0; 0]]%R)
    (Some (Tensor 2 [[true; false]]))
  = Ok (Scalar ((Rmax 0 (1 - (2 * 0 - 1) * 0) + (0 + 0) + 0)
                / INR (nrows (Tensor 2 [[0; 0]]%R)
                       * ncols (Tensor 2 [[0; 0]]%R)))).
Proof.
  apply (forward_mean_is_sum_over_numel CHinge _ "sum").
  - reflexivity.
  - discriminate.
  - discriminate.
  - repeat constructor.
  - repeat constructor.
  - unfold nrows. simpl. lia.
  - reflexivity.
Defined.

Lemma vsum_imap_zero (f : nat -> R -> R) (r : list R) :
  (forall j x, f j x = 0%R) -> vsum (imap f r) = 0%R.
Proof.
  revert f. induction r as [|x r IH]; intros f Hf; simpl; [reflexivity|].
  rewrite Hf, (IH (f ∘ S)) by (intros; apply Hf). lra.
Qed.

Lemma tsum_imap_zero (f : nat -> nat -> R -> R) (rs : list (list R)) :
  (forall i j x, f i j x = 0%R) ->
  vsum (vsum <$> imap (fun i r => imap (f i) r) rs) = 0%R.
Proof.
  revert f. induction rs as [|r rs IH]; intros f Hf; simpl; [reflexivity|].
  rewrite (vsum_imap_zero (f 0)) by apply Hf.
  rewrite Rplus_0_l. apply (IH (fun i => f (S i))). intros. apply Hf.
Qed.

(** X7: when the mask is false at every position, each of the four
    [forward] methods with a scalar reduction returns 0: the sum is 0, and
    so is the mean of an input with at least one entry, which is divided by
    the number of all entries. *)
Theorem forward_all_masked_is_zero (c : loss_class)
  (self : gmap string value) (s : string) (input target : tensor R)
  (m : tensor bool) (v : tvalue) :
  self !! "reduction" = Some (VStr s) -> s <> "none" ->
  wf input -> wf target -> wf m ->
  (forall i j b, tget m i j = Some b -> b = false) ->
  (s = "mean" -> nrows input * ncols input <> 0) ->
  forward c self input target (Some m) = Ok v ->
  v = Scalar 0.
Proof.
  intros Hred Hnone Hwi Hwt Hwm Hfalse Hne Hfw.
  destruct (loss_terms c self input target) as [loss|e] eqn:Hl.
  2: { rewrite (forward_terms_raise _ _ _ _ _ _ Hl) in Hfw. discriminate. }
  destruct (loss_terms_wf c _ _ _ _ Hwi Hwt Hl) as (Hwf & Hr & Hc).
  assert (forall m', Some m = Some m' -> wf m') as Hm
    by (intros m' [= <-]; exact Hwm).
  destruct (forward_masked _ _ _ _ _ _ _ Hl Hwf Hm Hfw)
    as (out & Hout & Hwfo & Hro & Hco & Hget).
  assert (tsum out = 0%R) as Hsum.
  { unfold tsum.
    rewrite (rows_imap (fun _ _ _ => 0%R) loss out Hwf Hwfo Hro Hco).
    - apply (tsum_imap_zero (fun _ _ _ => 0%R)). reflexivity.
    - intros i j x Hx. rewrite (Hget i j x Hx). unfold counted.
      destruct (tget m i j) as [b|] eqn:Hb; simpl.
      + rewrite (Hfalse i j b Hb), andb_false_r. reflexivity.
      + rewrite andb_false_r. reflexivity. }
  destruct (decide (s = "mean")) as [->|Hmean].
  - rewrite (_reduce_mean _ _ Hred) in Hout. injection Hout as <-.
    unfold tmean, numel. rewrite Hro, Hco, Hr, Hc.
    rewrite bool_decide_eq_false_2 by (apply Hne; reflexivity).
    rewrite Hsum. f_equal. unfold Rdiv. apply Rmult_0_l.
  - rewrite (_reduce_sum _ _ _ Hred Hnone Hmean) in Hout.
    injection Hout as <-. rewrite Hsum. reflexivity.
Qed.

Lemma forward_all_masked_is_zero_witness :
  Scalar (0 + (0 + 0) + 0) = Scalar 0.
Proof.
  apply (forward_all_masked_is_zero CHinge
           {[ "reduction" := VStr "sum"; "pad_ind" := VNone;
              "margin" := VFloat 1 ]} "sum"
           (Tensor 2 [[3; -2]]%R) (Tensor 2 [[0; 1]]%R)
           (Tensor 2 [[false; false]])).
  - reflexivity.
  - discriminate.
  - repeat constructor.
  - repeat constructor.
  - repeat constructor.
  - intros [|i] [|[|j]] b; simpl; intros [= <-]; reflexivity.
  - discriminate.
  - reflexivity.
Defined.

(** Filling under a mask that is false everywhere changes nothing. *)
Lemma masked_fill_nowhere (t : tensor R) (mk : tensor bool) (v : R) :
  wf t -> wf mk -> nrows mk = nrows t -> ncols mk = ncols t ->
  (forall i j b, tget mk i j = Some b -> b = false) ->
  masked_fill t mk v = Ok t.
Proof.
  intros Ht Hm Hr Hc Hfalse. unfold masked_fill.
  rewrite tmap2_same_shape by auto. f_equal.
  destruct t as [n rs]. simpl in *. f_equal.
  apply list_eq. intros i. rewrite lookup_zip_with.
  destruct (rs !! i) as [r|] eqn:Er; simpl; [|reflexivity].
  assert (i < nrows mk) as Hi
    by (rewrite Hr; unfold nrows; simpl; eapply lookup_lt_Some, Er).
  destruct (lookup_lt_is_Some_2 (rows mk) i Hi) as [rm Erm].
  rewrite Erm. simpl. f_equal.
  pose proof (Forall_lookup_1 _ _ _ _ Ht Er) as Lr.
  pose proof (Forall_lookup_1 _ _ _ _ Hm Erm) as Lm. simpl in Lr, Lm.
  apply list_eq. intros j. rewrite lookup_zip_with.
  destruct (r !! j) as [x|] eqn:Ex; simpl; [|reflexivity].
  assert (j < length rm) as Hj
    by (rewrite Lm, Hc, <- Lr; eapply lookup_lt_Some, Ex).
  destruct (lookup_lt_is_Some_2 rm j Hj) as [b Eb]. rewrite Eb. simpl.
  assert (tget mk i j = Some b) as Hb
    by (unfold tget; rewrite Erm; simpl; exact Eb).
  rewrite (Hfalse i j b Hb). reflexivity.
Qed.

(** X8: a mask of the input's shape that is true at every position is the
    same as no mask: each of the four [forward] methods gives the same
    result, value or exception, with it and without. *)
Theorem forward_full_mask_is_no_mask (c : loss_class)
  (self : gmap string value) (input target : tensor R) (m : tensor bool) :
  wf input -> wf target -> wf m ->
  nrows m = nrows input -> ncols m = ncols input ->
  (forall i j b, tget m i j = Some b -> b = true) ->
  forward c self input target (Some m) = forward c self input target None.
Proof.
  intros Hwi Hwt Hwm Hr Hc Htrue. rewrite !forward_unfold.
  destruct (loss_terms c self input target) as [loss|e] eqn:Hl;
    [|reflexivity].
  destruct (loss_terms_wf c _ _ _ _ Hwi Hwt Hl) as (Hwf & Hrl & Hcl).
  rewrite !mbind_Ok.
  destruct (_mask_at_pad self loss) as [l1|e] eqn:H1; [|reflexivity].
  destruct (_mask_at_pad_spec _ _ _ Hwf H1) as (Hwf1 & Hr1 & Hc1 & _).
  rewrite !mbind_Ok. unfold _mask.
  rewrite masked_fill_nowhere; [reflexivity | exact Hwf1 | | | |].
  - by apply wf_tmap.
  - rewrite nrows_tmap. congruence.
  - rewrite ncols_tmap. congruence.
  - intros i j b. rewrite tget_tmap.
    destruct (tget m i j) as [b'|] eqn:Hb; simpl; [|discriminate].
    intros [= <-]. rewrite (Htrue i j b' Hb). reflexivity.
Qed.

Lemma forward_full_mask_is_no_mask_witness :
  forward CCosineEmbedding
    {[ "reduction" := VStr "mean"; "pad_ind" := VNone;
       "margin" := VFloat (8 / 10); "pos_weight" := VFloat 1 ]}
    (Tensor 2 [[1; 1 / 2]]%R) (Tensor 2 [[1; 0]]%R)
    (Some (Tensor 2 [[true; true]]))
  = forward CCosineEmbedding
      {[ "reduction" := VStr "mean"; "pad_ind" := VNone;
         "margin" := VFloat (8 / 10); "pos_weight" := VFloat 1 ]}
      (Tensor 2 [[1; 1 / 2]]%R) (Tensor 2 [[1; 0]]%R) None.
Proof.
  apply forward_full_mask_is_no_mask.
  - repeat constructor.
  - repeat constructor.
  - repeat constructor.
  - reflexivity.
  - reflexivity.
  - intros [|i] [|[|j]] b; simpl; intros [= <-]; reflexivity.
Defined.

Lemma vsum_nonneg xs : Forall (fun x => (0 <= x)%R) xs -> (0 <= vsum xs)%R.
Proof.
  induction 1 as [|x xs Hx _ IH]; simpl; lra.
Qed.

(** The entries of a masked hinge loss are nonnegative. *)
Lemma HingeLoss_masked_nonneg self input target mask loss out :
  HingeLoss.loss_terms self input target = Ok loss ->
  wf loss -> wf out -> nrows out = nrows loss -> ncols out = ncols loss ->
  (forall i j x, tget loss i j = Some x ->
     tget out i j =
     Some (if counted (pad_column self (ncols loss)) mask i j
           then x else 0%R)) ->
  Forall (Forall (fun x => (0 <= x)%R)) (rows out).
Proof.
  intros Hl Hwf Hwfo Hr Hc Hget.
  assert (forall i j x, tget loss i j = Some x -> (0 <= x)%R) as Hpos.
  { unfold HingeLoss.loss_terms in Hl.
    destruct (getattr self "margin") as [v|]; [|discriminate].
    rewrite mbind_Ok in Hl.
    destruct (tmap2 _ _ _) as [yx|]; [|discriminate].
    rewrite mbind_Ok in Hl.
    destruct (as_real v) as [m|]; [|discriminate].
    rewrite mbind_Ok in Hl. injection Hl as <-.
    intros i j x. unfold relu. rewrite tget_tmap.
    destruct (tget _ i j) as [y|]; simpl; [|discriminate].
    intros [= <-]. apply relu_nonneg. }
  apply Forall_lookup_2. intros i r Hi.
  apply Forall_lookup_2. intros j y Hj.
  assert (tget out i j = Some y) as Ho
    by (unfold tget; rewrite Hi; simpl; exact Hj).
  destruct (tget_Some_lt _ _ _ _ Hwfo Ho) as [Hlti Hltj].
  destruct (tget_is_Some loss i j Hwf) as [x Hx]; [lia | lia |].
  rewrite (Hget i j x Hx) in Ho. injection Ho as <-.
  destruct (counted _ _ _ _); [eauto | lra].
Qed.

(** X9: the hinge loss is nonnegative under every reduction to a scalar:
    what [HingeLoss.forward] returns with 'mean', 'sum' or any other string
    but 'none' is a number >= 0, whatever the mask and the padding index
    are. *)
Theorem HingeLoss_forward_nonneg (self : gmap string value) (s : string)
  (input target : tensor R) (mask : option (tensor bool)) (v : R) :
  self !! "reduction" = Some (VStr s) -> s <> "none" ->
  wf input -> wf target ->
  (forall m, mask = Some m -> wf m) ->
  HingeLoss.forward self input target mask = Ok (Scalar v) ->
  (0 <= v)%R.
Proof.
  intros Hred Hnone Hwi Hwt Hm Hfw.
  change (forward CHinge self input target mask = Ok (Scalar v)) in Hfw.
  destruct (loss_terms CHinge self input target) as [loss|e] eqn:Hl.
  2: { rewrite (forward_terms_raise _ _ _ _ _ _ Hl) in Hfw. discriminate. }
  destruct (loss_terms_wf CHinge _ _ _ _ Hwi Hwt Hl) as (Hwf & Hr & Hc).
  destruct (forward_masked _ _ _ _ _ _ _ Hl Hwf Hm Hfw)
    as (out & Hout & Hwfo & Hro & Hco & Hget).
  pose proof (HingeLoss_masked_nonneg _ _ _ _ _ _ Hl Hwf Hwfo Hro Hco Hget)
    as Hpos.
  assert (0 <= tsum out)%R as Hsum.
  { unfold tsum. apply vsum_nonneg, Forall_fmap.
    eapply Forall_impl; [exact Hpos|]. intros r Hrow. simpl.
    by apply vsum_nonneg. }
  destruct (decide (s = "mean")) as [->|Hmean].
  - rewrite (_reduce_mean _ _ Hred) in Hout. unfold tmean in Hout.
    case_bool_decide; [discriminate|]. injection Hout as <-.
    apply Rmult_le_pos; [exact Hsum|].
    left. apply Rinv_0_lt_compat, lt_0_INR. lia.
  - rewrite (_reduce_sum _ _ _ Hred Hnone Hmean) in Hout.
    injection Hout as <-. exact Hsum.
Qed.

Lemma HingeLoss_forward_nonneg_witness :
  (0 <= (Rmax 0 (1 - (2 * 0 - 1) * 3) + (0 + 0) + 0) / INR (1 * 2))%R.
Proof.
  apply (HingeLoss_forward_nonneg
           {[ "reduction" := VStr "mean"; "pad_ind" := VInt 1;
              "margin" := VFloat 1 ]} "mean"
           (Tensor 2 [[3; -2]]%R) (Tensor 2 [[0; 1]]%R) None).
  - reflexivity.
  - discriminate.
  - repeat constructor.
  - repeat constructor.
  - discriminate.
  - reflexivity.
Defined.

(** X10: an entry of the hinge loss is 0 exactly when the prediction is on
    the right side of the margin, margin <= (2 * target - 1) * input, and
    is the shortfall margin - (2 * target - 1) * input otherwise. *)
Theorem HingeLoss_term_zero_iff (self : gmap string value) (v : value)
  (m : R) (input target loss : tensor R) (i j : nat) (x t l : R) :
  self !! "margin" = Some v -> as_real v = Ok m ->
  HingeLoss.loss_terms self input target = Ok loss ->
  tget input i j = Some x -> tget target i j = Some t ->
  tget loss i j = Some l ->
  (l = 0%R <-> (m <= (2 * t - 1) * x)%R) /\
  (l <> 0%R -> l = (m - (2 * t - 1) * x)%R).
Proof.
  intros Hv Hm Hl Hx Ht Hlij.
  destruct (loss_terms_same_shape CHinge _ _ _ _ Hl) as [Hr Hc].
  destruct (HingeLoss_terms_entry _ _ _ _ _ Hv Hm Hr Hc) as (loss' & Hl' & Hget).
  rewrite Hl in Hl'. injection Hl' as <-.
  rewrite (Hget i j x t Hx Ht) in Hlij. injection Hlij as <-.
  unfold Rmax. destruct (Rle_dec 0 (m - (2 * t - 1) * x)); split;
    try split; intros; lra.
Qed.

Lemma HingeLoss_term_zero_iff_witness :
  (0%R = 0%R <-> (1 <= (2 * 1 - 1) * 3)%R) /\
  (0%R <> 0%R -> 0%R = (1 - (2 * 1 - 1) * 3)%R).
Proof.
  apply (HingeLoss_term_zero_iff {[ "margin" := VFloat 1 ]} (VFloat 1) 1
           (Tensor 1 [[3]]%R) (Tensor 1 [[1]]%R)
           (Tensor 1 [[Rmax 0 (1 - (2 * 1 - 1) * 3)]]%R) 0 0).
  - reflexivity.
  - reflexivity.
  - reflexivity.
  - reflexivity.
  - reflexivity.
  - unfold tget. simpl. f_equal. apply Rmax_left. lra.
Defined.

(** X11: an entry of the cosine-embedding loss is nonnegative when the
    input is at most 1 (as a cosine similarity is) and the positive weight
    is not negative; the positive branch is not clamped, so for a positive
    target, an input above 1 and a positive weight the entry is negative. *)
Theorem CosineEmbeddingLoss_term_sign (self : gmap string value)
  (vp vm : value) (pw m : R) (input target loss : tensor R) (i j : nat)
  (x t l : R) :
  self !! "pos_weight" = Some vp -> as_real vp = Ok pw ->
  self !! "margin" = Some vm -> as_real vm = Ok m ->
  CosineEmbeddingLoss.loss_terms self input target = Ok loss ->
  tget input i j = Some x -> tget target i j = Some t ->
  tget loss i j = Some l ->
  ((x <= 1)%R -> (0 <= pw)%R -> (0 <= l)%R) /\
  ((0 < t)%R -> (1 < x)%R -> (0 < pw)%R -> (l < 0)%R).
Proof.
  intros Hvp Hpw Hvm Hm Hl Hx Ht Hlij.
  destruct (loss_terms_same_shape CCosineEmbedding _ _ _ _ Hl) as [Hr Hc].
  destruct (CosineEmbeddingLoss_terms_entry _ _ _ _ _ _ _ Hvp Hpw Hvm Hm Hr Hc)
    as (loss' & Hl' & Hget).
  rewrite Hl in Hl'. injection Hl' as <-.
  rewrite (Hget i j x t Hx Ht) in Hlij. injection Hlij as <-.
  unfold Rgtb. destruct (Rlt_dec 0 t) as [Hpos|Hneg]; split.
  - intros Hx1 Hp. apply Rmult_le_pos; lra.
  - intros _ Hx1 Hp. assert (0 < (x - 1) * pw)%R by (apply Rmult_lt_0_compat; lra).
    lra.
  - intros _ _. apply relu_nonneg.
  - intros Hpos. contradiction.
Qed.

Lemma CosineEmbeddingLoss_term_sign_witness :
  ((2 <= 1)%R -> (0 <= 1)%R -> (0 <= (1 - 2) * 1)%R) /\
  ((0 < 1)%R -> (1 < 2)%R -> (0 < 1)%R -> ((1 - 2) * 1 < 0)%R).
Proof.
  apply (CosineEmbeddingLoss_term_sign
           {[ "margin" := VFloat (8 / 10); "pos_weight" := VFloat 1 ]}
           (VFloat 1) (VFloat (8 / 10)) 1 (8 / 10)
           (Tensor 1 [[2]]%R) (Tensor 1 [[1]]%R)
           (Tensor 1 [[(1 - 2) * 1]]%R) 0 0 2 1).
  - reflexivity.
  - reflexivity.
  - reflexivity.
  - reflexivity.
  - unfold CosineEmbeddingLoss.loss_terms, where_, getattr.
    change ({[ "margin" := VFloat (8 / 10); "pos_weight" := VFloat 1 ]}
              !! "pos_weight") with (Some (VFloat 1)).
    change ({[ "margin" := VFloat (8 / 10); "pos_weight" := VFloat 1 ]}
              !! "margin") with (Some (VFloat (8 / 10))).
    simpl. unfold tmap2, tmap, zeros_like, same_shape, nrows. simpl.
    unfold Rgtb. destruct (Rlt_dec 0 1) as [_|Hn]; [reflexivity | lra].
  - reflexivity.
  - reflexivity.
  - reflexivity.
Defined.

(** ** Constructors *)

(** The parameters left after the positional arguments are among the
    parameters. *)
Lemma bind_positional_rest params args env rest :
  bind_positional params args = Ok (env, rest) -> rest.*1 ⊆ params.*1.
Proof.
  revert params env rest.
  induction args as [|a args IH]; intros params env rest; simpl.
  - intros [= <- <-]. reflexivity.
  - destruct params as [|[p d] params]; [discriminate|].
    destruct (bind_positional params args) as [[env' rest']|e] eqn:E;
      [|discriminate].
    intros [= <- <-]. simpl. apply list_subseteq_cons. eapply IH, E.
Qed.

(** A keyword that names no parameter makes the binding raise. *)
Lemma bind_keywords_unknown rest kwargs env k :
  k ∈ kwargs.*1 -> k ∉ rest.*1 ->
  bind_keywords rest kwargs env = Raise TypeError.
Proof.
  revert env. induction kwargs as [|[k' v] kwargs IH]; intros env Hin Hnot.
  - simpl in Hin. by apply not_elem_of_nil in Hin.
  - simpl. destruct (env !! k'); [reflexivity|].
    case_bool_decide as Hk'; [|reflexivity].
    simpl in Hin. apply elem_of_cons in Hin as [-> | Hin]; [contradiction|].
    by apply IH.
Qed.

Lemma bind_args_unknown_keyword params args kwargs k :
  k ∈ kwargs.*1 -> k ∉ params.*1 ->
  bind_args params args kwargs = Raise TypeError.
Proof.
  intros Hin Hnot. unfold bind_args.
  destruct (bind_positional params args) as [[env rest]|e] eqn:E.
  - rewrite (bind_keywords_unknown rest kwargs env k Hin); [reflexivity|].
    intros Hk. apply Hnot. eapply bind_positional_rest; eauto.
  - f_equal. eapply bind_positional_exn, E.
Qed.

(** X12: [HingeLoss.__init__] succeeds for every call whose arguments bind
    to (margin, reduction, pad_ind), and stores each bound value under its
    own attribute: the reduction and the padding index that it forwards
    arrive at the base initializer in the order the latter expects. *)
Theorem HingeLoss_init_stores_arguments (self : gmap string value)
  (args : list value) (kwargs : list (string * value))
  (env : gmap string value) :
  bind_args HingeLoss.params args kwargs = Ok env ->
  exists self',
    HingeLoss.__init__ self args kwargs = Ok self' /\
    self' !! "margin" = Some (param env "margin") /\
    self' !! "reduction" = Some (param env "reduction") /\
    self' !! "pad_ind" = Some (param env "pad_ind").
Proof.
  intros Hb. unfold HingeLoss.__init__. rewrite Hb, mbind_Ok.
  change (_Loss.__init__ self [param env "reduction"; param env "pad_ind"] [])
    with (@Ok (gmap string value)
            (setattr
               (setattr (Module__init__ self) "reduction"
                        (param env "reduction"))
               "pad_ind" (param env "pad_ind"))).
  rewrite mbind_Ok. eexists. split; [reflexivity|].
  unfold setattr, Module__init__, setattr.
  repeat split; by simplify_map_eq.
Qed.

Lemma HingeLoss_init_stores_arguments_witness :
  exists self',
    HingeLoss.__init__ ∅ [VFloat 2] [("pad_ind", VInt 0)] = Ok self' /\
    self' !! "margin" = Some (VFloat 2) /\
    self' !! "reduction" = Some (VStr "mean") /\
    self' !! "pad_ind" = Some (VInt 0).
Proof.
  destruct (HingeLoss_init_stores_arguments ∅ [VFloat 2] [("pad_ind", VInt 0)]
              {[ "margin" := VFloat 2; "reduction" := VStr "mean";
                 "pad_ind" := VInt 0 ]})
    as (self' & Hi & Hm & Hr & Hp).
  - reflexivity.
  - exists self'. repeat split; assumption.
Defined.

(** X13: a [CosineEmbeddingLoss] has no padding index, although its
    docstring lists one: every instance that its initializer builds has
    [pad_ind] None, so [forward] pads no column on it, and a call that
    passes the keyword [pad_ind] raises [TypeError]. *)
Theorem CosineEmbeddingLoss_has_no_pad_ind (self : gmap string value)
  (args : list value) (kwargs : list (string * value)) :
  (forall self', CosineEmbeddingLoss.__init__ self args kwargs = Ok self' ->
     self' !! "pad_ind" = Some VNone /\
     forall n, pad_column self' n = None) /\
  ("pad_ind" ∈ kwargs.*1 ->
   CosineEmbeddingLoss.__init__ self args kwargs = Raise TypeError).
Proof.
  split.
  - intros self'. unfold CosineEmbeddingLoss.__init__.
    destruct (bind_args CosineEmbeddingLoss.params args kwargs) as [env|e];
      [|discriminate].
    rewrite mbind_Ok.
    change (_Loss.__init__ self [] [("reduction", param env "reduction")])
      with (@Ok (gmap string value)
              (setattr
                 (setattr (Module__init__ self) "reduction"
                          (param env "reduction"))
                 "pad_ind" VNone)).
    rewrite mbind_Ok. intros [= <-].
    assert (setattr
              (setattr
                 (setattr
                    (setattr (Module__init__ self) "reduction"
                             (param env "reduction")) "pad_ind" VNone)
                 "margin" (param env "margin"))
              "pos_weight" (param env "pos_weight") !! "pad_ind"
            = Some VNone) as Hp
      by (unfold setattr, Module__init__, setattr; by simplify_map_eq).
    split; [exact Hp|]. intros n. unfold pad_column. rewrite Hp. reflexivity.
  - intros Hin. unfold CosineEmbeddingLoss.__init__.
    rewrite (bind_args_unknown_keyword _ args kwargs "pad_ind" Hin);
      [reflexivity|].
    simpl. intros H. repeat (apply elem_of_cons in H as [H|H];
                             [discriminate|]).
    by apply not_elem_of_nil in H.
Qed.

Lemma CosineEmbeddingLoss_has_no_pad_ind_witness :
  CosineEmbeddingLoss.__init__ ∅ [VFloat (1 / 2)] [("pad_ind", VInt 0)]
  = Raise TypeError.
Proof.
  apply (CosineEmbeddingLoss_has_no_pad_ind ∅ [VFloat (1 / 2)]
           [("pad_ind", VInt 0)]).
  simpl. apply list_elem_of_here.
Defined.

(** * Further properties of the samplers *)

Lemma BaseSampler_query_times self d (s : Z) (n : nat) (k : nat) st :
  heap st !! self = Some d ->
  d !! "index"
  = Some (VPartial np_random_randint {[ "low" := VInt 0; "high" := VInt s ]}) ->
  d !! "num_samples" = Some (VInt (Z.of_nat n)) ->
  (0 < s <= int64_max + 1)%Z -> (8 * Z.of_nat n <= int64_max)%Z ->
  exists qs st',
    BaseSampler._query_times self k st = Ok (qs, st') /\
    length qs = k /\
    Forall (fun q : list Z * list R =>
              length q.1 = n /\ (forall i, i ∈ q.1 -> (0 <= i < s)%Z) /\
              q.2 = replicate n 1%R) qs /\
    heap st' = heap st.
Proof.
  intros Hd Hidx Hnum Hs Hmem. revert st Hd.
  induction k as [|k IH]; intros st Hd; simpl.
  - exists [], st. repeat split; auto.
  - destruct (BaseSampler_query_once self d s n st Hd Hidx Hnum Hs Hmem)
      as (idx & st1 & Hq & Hlen & Hin & Hh1 & _).
    rewrite Hq, mbind_Ok.
    assert (heap st1 !! self = Some d) as Hd1 by (rewrite Hh1; exact Hd).
    destruct (IH st1 Hd1) as (qs & st' & Hqs & Hl & Hall & Hh).
    rewrite Hqs, mbind_Ok.
    exists ((idx, replicate n 1%R) :: qs), st'.
    split; [reflexivity|]. split; [simpl; lia|].
    split; [constructor; [simpl; auto | exact Hall]|].
    congruence.
Qed.

(** X14: a [BaseSampler] constructed with a size s, 0 < s <= 2^63, and a
    number of samples n < 2^60 answers [query(k)] for k other than 1 with a
    list of k pairs (none for k <= 0), each of n indices in [[0, s)] and n
    weights 1.0. *)
Theorem BaseSampler_query_many (args : list value)
  (kwargs : list (string * value)) (env : gmap string value) (s k : Z)
  (n : nat) (st : state) :
  bind_args BaseSampler.params args kwargs = Ok env ->
  env !! "size" = Some (VInt s) ->
  env !! "num_samples" = Some (VInt (Z.of_nat n)) ->
  (0 < s <= 2 ^ 63)%Z -> (Z.of_nat n < 2 ^ 60)%Z -> k <> 1%Z ->
  exists self st1 qs st2,
    BaseSampler.new args kwargs st = Ok (self, st1) /\
    BaseSampler.query self k st1 = Ok (BaseSampler.Many qs, st2) /\
    length qs = Z.to_nat k /\
    Forall (fun q : list Z * list R =>
              length q.1 = n /\ (forall i, i ∈ q.1 -> (0 <= i < s)%Z) /\
              q.2 = replicate n 1%R) qs.
Proof.
  intros Hb Hsize Hnum Hs Hn Hk.
  destruct (BaseSampler_new_dict args kwargs env st Hb)
    as (st1 & Hnew & _ & _ & _ & Hd).
  rewrite !(param_lookup _ _ _ Hsize), (param_lookup _ _ _ Hnum) in Hd.
  destruct (BaseSampler_query_times (next_ref st) _ s n (Z.to_nat k) st1 Hd)
    as (qs & st2 & Hqs & Hl & Hall & _);
    [apply lookup_insert_eq | by simplify_map_eq
     | unfold int64_max; lia | unfold int64_max; lia |].
  exists (next_ref st), st1, qs, st2.
  split; [exact Hnew|]. split; [|auto].
  unfold BaseSampler.query. rewrite bool_decide_eq_false_2 by exact Hk.
  rewrite Hqs. reflexivity.
Qed.

Lemma BaseSampler_query_many_witness :
  exists self st1 qs st2,
    BaseSampler.new [VInt 10; VInt 5] []
      (State ∅ ∅ (fun k => Z.of_nat (7 * k + 3)) 0 0) = Ok (self, st1) /\
    BaseSampler.query self 3 st1 = Ok (BaseSampler.Many qs, st2) /\
    length qs = Z.to_nat 3 /\
    Forall (fun q : list Z * list R =>
              length q.1 = 5 /\ (forall i, i ∈ q.1 -> (0 <= i < 10)%Z) /\
              q.2 = replicate 5 1%R) qs.
Proof.
  eapply (BaseSampler_query_many [VInt 10; VInt 5] [] _ 10 3 5).
  - reflexivity.
  - reflexivity.
  - reflexivity.
  - lia.
  - simpl. lia.
  - discriminate.
Defined.

(** A call of the [partial] moves nothing but the generator. *)
Lemma call_frame f kw st indices st' :
  call f kw st = Ok (indices, st') ->
  heap st' = heap st /\ files st' = files st /\
  rng_stream st' = rng_stream st /\ rng_pos st <= rng_pos st'.
Proof.
  unfold call. destruct f as [| | | | | | | |c kw'|]; try discriminate.
  destruct c.
  destruct (getattr _ "low" ≫= as_int) as [low|]; [|discriminate].
  rewrite mbind_Ok.
  destruct (getattr _ "high" ≫= as_int) as [high|]; [|discriminate].
  rewrite mbind_Ok.
  destruct (getattr _ "size" ≫= as_int) as [size|]; [|discriminate].
  rewrite mbind_Ok. unfold randint.
  repeat case_bool_decide; try discriminate.
  - intros [= _ <-]. repeat split; auto.
  - intros [= _ <-]. simpl. repeat split; auto. lia.
Qed.

Lemma BaseSampler_query_once_frame self st q st' :
  BaseSampler._query self st = Ok (q, st') ->
  heap st' = heap st /\ files st' = files st /\
  rng_stream st' = rng_stream st /\ rng_pos st <= rng_pos st'.
Proof.
  unfold BaseSampler._query.
  destruct (get_attr self "index" st) as [index|]; [|discriminate].
  rewrite mbind_Ok.
  destruct (get_attr self "num_samples" st) as [num|]; [|discriminate].
  rewrite mbind_Ok.
  destruct (call index _ st) as [[idx st1]|] eqn:Hc; [|discriminate].
  rewrite mbind_Ok.
  destruct (get_attr self "num_samples" st1 ≫= as_int) as [num'|];
    [|discriminate].
  rewrite mbind_Ok. intros [= _ <-]. eapply call_frame, Hc.
Qed.

Lemma BaseSampler_query_times_frame self k st qs st' :
  BaseSampler._query_times self k st = Ok (qs, st') ->
  heap st' = heap st /\ files st' = files st /\
  rng_stream st' = rng_stream st /\ rng_pos st <= rng_pos st'.
Proof.
  revert st qs st'. induction k as [|k IH]; intros st qs st'; simpl.
  - intros [= _ <-]. repeat split; auto.
  - destruct (BaseSampler._query self st) as [[q st1]|] eqn:Hq;
      [|discriminate].
    rewrite mbind_Ok.
    destruct (BaseSampler._query_times self k st1) as [[qs' st2]|] eqn:Hqs;
      [|discriminate].
    rewrite mbind_Ok. intros [= _ <-].
    destruct (BaseSampler_query_once_frame _ _ _ _ Hq) as (H1 & H2 & H3 & H4).
    destruct (IH _ _ _ Hqs) as (H1' & H2' & H3' & H4').
    repeat split; try congruence. lia.
Qed.

(** X15: [query] changes nothing but the position of the random
    generator: whatever it is called on and however many instances are
    asked for, when it returns every object has the attributes it had, the
    files are what they were, and the generator has only moved forward. *)
Theorem BaseSampler_query_frame (self : nat) (k : Z) (st st' : state)
  (v : BaseSampler.shortlist) :
  BaseSampler.query self k st = Ok (v, st') ->
  heap st' = heap st /\ files st' = files st /\
  rng_stream st' = rng_stream st /\ rng_pos st <= rng_pos st'.
Proof.
  unfold BaseSampler.query. case_bool_decide.
  - destruct (BaseSampler._query self st) as [[q st1]|] eqn:Hq;
      [|discriminate].
    rewrite mbind_Ok. intros [= _ <-].
    eapply BaseSampler_query_once_frame, Hq.
  - destruct (BaseSampler._query_times self _ st) as [[qs st1]|] eqn:Hq;
      [|discriminate].
    rewrite mbind_Ok. intros [= _ <-].
    eapply BaseSampler_query_times_frame, Hq.
Qed.

Lemma BaseSampler_query_frame_witness :
  heap (advance_rng 2
          (State {[ 0 := {[ "index" := VPartial np_random_randint
                            {[ "low" := VInt 0; "high" := VInt 4 ]};
                         "num_samples" := VInt 2 ]} ]}
              ∅ (fun k => Z.of_nat k) 0 1))
  = heap (State {[ 0 := {[ "index" := VPartial np_random_randint
                            {[ "low" := VInt 0; "high" := VInt 4 ]};
                         "num_samples" := VInt 2 ]} ]}
              ∅ (fun k => Z.of_nat k) 0 1) /\
  files (advance_rng 2
          (State {[ 0 := {[ "index" := VPartial np_random_randint
                            {[ "low" := VInt 0; "high" := VInt 4 ]};
                         "num_samples" := VInt 2 ]} ]}
              ∅ (fun k => Z.of_nat k) 0 1))
  = files (State {[ 0 := {[ "index" := VPartial np_random_randint
                            {[ "low" := VInt 0; "high" := VInt 4 ]};
                         "num_samples" := VInt 2 ]} ]}
              ∅ (fun k => Z.of_nat k) 0 1) /\
  rng_stream (advance_rng 2
          (State {[ 0 := {[ "index" := VPartial np_random_randint
                            {[ "low" := VInt 0; "high" := VInt 4 ]};
                         "num_samples" := VInt 2 ]} ]}
              ∅ (fun k => Z.of_nat k) 0 1))
  = rng_stream (State {[ 0 := {[ "index" := VPartial np_random_randint
                            {[ "low" := VInt 0; "high" := VInt 4 ]};
                         "num_samples" := VInt 2 ]} ]}
              ∅ (fun k => Z.of_nat k) 0 1) /\
  rng_pos (State {[ 0 := {[ "index" := VPartial np_random_randint
                            {[ "low" := VInt 0; "high" := VInt 4 ]};
                         "num_samples" := VInt 2 ]} ]}
              ∅ (fun k => Z.of_nat k) 0 1)
  <= rng_pos (advance_rng 2
          (State {[ 0 := {[ "index" := VPartial np_random_randint
                            {[ "low" := VInt 0; "high" := VInt 4 ]};
                         "num_samples" := VInt 2 ]} ]}
              ∅ (fun k => Z.of_nat k) 0 1)).
Proof.
  apply (BaseSampler_query_frame 0 1
           (State {[ 0 := {[ "index" := VPartial np_random_randint
                            {[ "low" := VInt 0; "high" := VInt 4 ]};
                         "num_samples" := VInt 2 ]} ]}
              ∅ (fun k => Z.of_nat k) 0 1)
           _ (BaseSampler.One ([0; 1]%Z, [1; 1]%R))).
  vm_compute. reflexivity.
Defined.

(** A query for at least one sample on an empty range raises. *)
Lemma BaseSampler_query_once_empty self d (s n : Z) st :
  heap st !! self = Some d ->
  d !! "index"
  = Some (VPartial np_random_randint {[ "low" := VInt 0; "high" := VInt s ]}) ->
  d !! "num_samples" = Some (VInt n) ->
  (s <= 0)%Z -> n <> 0%Z ->
  BaseSampler._query self st = Raise ValueError.
Proof.
  intros Hd Hidx Hnum Hs Hn. unfold BaseSampler._query.
  rewrite (get_attr_spec _ "index" st _ _ Hd Hidx), mbind_Ok.
  rewrite (get_attr_spec _ "num_samples" st _ _ Hd Hnum), mbind_Ok.
  unfold call.
  change (getattr ({[ "size" := VInt n ]} ∪
                   {[ "low" := VInt 0; "high" := VInt s ]}) "low")
    with (@Ok value (VInt 0)).
  change (getattr ({[ "size" := VInt n ]} ∪
                   {[ "low" := VInt 0; "high" := VInt s ]}) "high")
    with (@Ok value (VInt s)).
  change (getattr ({[ "size" := VInt n ]} ∪
                   {[ "low" := VInt 0; "high" := VInt s ]}) "size")
    with (@Ok value (VInt n)).
  simpl. unfold randint.
  rewrite bool_decide_eq_false_2 by exact Hn.
  rewrite bool_decide_eq_false_2 by (unfold int64_min; lia).
  rewrite bool_decide_eq_false_2 by (unfold int64_max; lia).
  rewrite bool_decide_eq_true_2 by lia.
  reflexivity.
Qed.

(** X16: the size is not checked at construction: a [BaseSampler] with a
    size s <= 0 is constructed without error, and when its number of
    samples is not 0 every [query] for at least one instance raises
    [ValueError], the range of the draw being empty. *)
Theorem BaseSampler_empty_range_raises (args : list value)
  (kwargs : list (string * value)) (env : gmap string value) (s n k : Z)
  (st : state) :
  bind_args BaseSampler.params args kwargs = Ok env ->
  env !! "size" = Some (VInt s) ->
  env !! "num_samples" = Some (VInt n) ->
  (s <= 0)%Z -> n <> 0%Z -> (1 <= k)%Z ->
  exists self st1,
    BaseSampler.new args kwargs st = Ok (self, st1) /\
    BaseSampler.query self k st1 = Raise ValueError.
Proof.
  intros Hb Hsize Hnum Hs Hn Hk.
  destruct (BaseSampler_new_dict args kwargs env st Hb)
    as (st1 & Hnew & _ & _ & _ & Hd).
  rewrite !(param_lookup _ _ _ Hsize), (param_lookup _ _ _ Hnum) in Hd.
  assert (BaseSampler._query (next_ref st) st1 = Raise ValueError) as Hq.
  { eapply BaseSampler_query_once_empty;
      [exact Hd | apply lookup_insert_eq | by simplify_map_eq
       | exact Hs | exact Hn]. }
  exists (next_ref st), st1. split; [exact Hnew|].
  unfold BaseSampler.query. case_bool_decide.
  - rewrite Hq. reflexivity.
  - destruct (Z.to_nat k) as [|k'] eqn:Ek; [lia|].
    simpl. rewrite Hq. reflexivity.
Qed.

Lemma BaseSampler_empty_range_raises_witness :
  exists self st1,
    BaseSampler.new [VInt 0; VInt 5] [] (State ∅ ∅ (fun _ => 0%Z) 0 0)
    = Ok (self, st1) /\
    BaseSampler.query self 1 st1 = Raise ValueError.
Proof.
  eapply (BaseSampler_empty_range_raises [VInt 0; VInt 5] [] _ 0 5 1).
  - reflexivity.
  - reflexivity.
  - reflexivity.
  - lia.
  - lia.
  - lia.
Defined.

(** X17: the range of the draw is fixed at construction, the number of
    samples is read at every query: after [size] and [num_samples] of a
    sampler constructed with a size s, 0 < s <= 2^63, are assigned new
    values, [query(1)] returns as many indices as the new [num_samples]
    (below 2^60) says, each in the range of the size given at
    construction. *)
Theorem BaseSampler_size_is_captured (args : list value)
  (kwargs : list (string * value)) (env : gmap string value) (s s' : Z)
  (n n' : nat) (st : state) :
  bind_args BaseSampler.params args kwargs = Ok env ->
  env !! "size" = Some (VInt s) ->
  env !! "num_samples" = Some (VInt (Z.of_nat n)) ->
  (0 < s <= 2 ^ 63)%Z -> (Z.of_nat n' < 2 ^ 60)%Z ->
  exists self st1 st2 st3 indices weights st4,
    BaseSampler.new args kwargs st = Ok (self, st1) /\
    set_attr self "size" (VInt s') st1 = Ok st2 /\
    set_attr self "num_samples" (VInt (Z.of_nat n')) st2 = Ok st3 /\
    get_attr self "size" st3 = Ok (VInt s') /\
    BaseSampler.query self 1 st3
    = Ok (BaseSampler.One (indices, weights), st4) /\
    length indices = n' /\
    (forall i, i ∈ indices -> (0 <= i < s)%Z) /\
    weights = replicate n' 1%R.
Proof.
  intros Hb Hsize Hnum Hs Hn'.
  destruct (BaseSampler_new_dict args kwargs env st Hb)
    as (st1 & Hnew & _ & _ & _ & Hd).
  rewrite !(param_lookup _ _ _ Hsize), (param_lookup _ _ _ Hnum) in Hd.
  destruct (set_attr_spec (next_ref st) "size" (VInt s') st1 _ Hd)
    as (st2 & H2 & Hd2 & _).
  destruct (set_attr_spec (next_ref st) "num_samples" (VInt (Z.of_nat n'))
              st2 _ Hd2) as (st3 & H3 & Hd3 & _).
  destruct (BaseSampler_query_once (next_ref st) _ s n' st3 Hd3)
    as (idx & st4 & Hq & Hlen & Hin & _);
    [by simplify_map_eq | by simplify_map_eq
     | unfold int64_max; lia | unfold int64_max; lia |].
  exists (next_ref st), st1, st2, st3, idx, (replicate n' 1%R), st4.
  split; [exact Hnew|]. split; [exact H2|]. split; [exact H3|].
  split; [eapply get_attr_spec; [exact Hd3 | by simplify_map_eq]|].
  split; [|auto].
  unfold BaseSampler.query. rewrite bool_decide_eq_true_2 by reflexivity.
  rewrite Hq. reflexivity.
Qed.

Lemma BaseSampler_size_is_captured_witness :
  exists self st1 st2 st3 indices weights st4,
    BaseSampler.new [VInt 10; VInt 5] []
      (State ∅ ∅ (fun k => Z.of_nat (7 * k + 3)) 0 0) = Ok (self, st1) /\
    set_attr self "size" (VInt 3) st1 = Ok st2 /\
    set_attr self "num_samples" (VInt (Z.of_nat 2)) st2 = Ok st3 /\
    get_attr self "size" st3 = Ok (VInt 3) /\
    BaseSampler.query self 1 st3
    = Ok (BaseSampler.One (indices, weights), st4) /\
    length indices = 2 /\
    (forall i, i ∈ indices -> (0 <= i < 10)%Z) /\
    weights = replicate 2 1%R.
Proof.
  eapply (BaseSampler_size_is_captured [VInt 10; VInt 5] [] _ 10 3 5 2).
  - reflexivity.
  - reflexivity.
  - reflexivity.
  - lia.
  - simpl. lia.
Defined.

(** X18: every constructed sampler is initialised: whatever arguments its
    initializer accepted, [data_init] is true afterwards. *)
Theorem BaseSampler_data_init_after_new (args : list value)
  (kwargs : list (string * value)) (env : gmap string value) (st : state) :
  bind_args BaseSampler.params args kwargs = Ok env ->
  exists self st1,
    BaseSampler.new args kwargs st = Ok (self, st1) /\
    BaseSampler.data_init self st1 = Ok true.
Proof.
  intros Hb.
  destruct (BaseSampler_new_dict args kwargs env st Hb)
    as (st1 & Hnew & _ & _ & _ & Hd).
  exists (next_ref st), st1. split; [exact Hnew|].
  unfold BaseSampler.data_init.
  rewrite (get_attr_spec _ "index" st1 _ _ Hd (lookup_insert_eq _ _ _)).
  reflexivity.
Qed.

Lemma BaseSampler_data_init_after_new_witness :
  exists self st1,
    BaseSampler.new [VInt 10] [("num_samples", VInt 5)]
      (State ∅ ∅ (fun _ => 0%Z) 0 0) = Ok (self, st1) /\
    BaseSampler.data_init self st1 = Ok true.
Proof.
  eapply (BaseSampler_data_init_after_new [VInt 10] [("num_samples", VInt 5)]).
  reflexivity.
Defined.

(** X19: the kind of value that [forward] returns follows the reduction:
    with 'none' it is a matrix of the shape of the input, with every row of
    the input's width; with any other string it is a scalar, or the NaN of
    the mean of an input without entries. *)
Theorem forward_result_shape (c : loss_class) (self : gmap string value)
  (s : string) (input target : tensor R) (mask : option (tensor bool))
  (v : tvalue) :
  self !! "reduction" = Some (VStr s) ->
  wf input -> wf target ->
  (forall m, mask = Some m -> wf m) ->
  forward c self input target mask = Ok v ->
  (s = "none" ->
   exists out, v = Mat out /\ wf out /\
     nrows out = nrows input /\ ncols out = ncols input) /\
  (s <> "none" ->
   (exists r, v = Scalar r) \/ (v = NaN /\ nrows input * ncols input = 0)).
Proof.
  intros Hred Hwi Hwt Hm Hfw.
  destruct (loss_terms c self input target) as [loss|e] eqn:Hl.
  2: { rewrite (forward_terms_raise _ _ _ _ _ _ Hl) in Hfw. discriminate. }
  destruct (loss_terms_wf c _ _ _ _ Hwi Hwt Hl) as (Hwf & Hr & Hc).
  destruct (forward_masked _ _ _ _ _ _ _ Hl Hwf Hm Hfw)
    as (out & Hout & Hwfo & Hro & Hco & _).
  split.
  - intros ->. rewrite (_reduce_none _ _ Hred) in Hout. injection Hout as <-.
    exists out. repeat split; [exact Hwfo | congruence | congruence].
  - intros Hnone. destruct (decide (s = "mean")) as [->|Hmean].
    + rewrite (_reduce_mean _ _ Hred) in Hout. injection Hout as <-.
      unfold tmean, numel. rewrite Hro, Hco, Hr, Hc.
      case_bool_decide; [right; auto | left; eauto].
    + rewrite (_reduce_sum _ _ _ Hred Hnone Hmean) in Hout.
      injection Hout as <-. left. eauto.
Qed.

Lemma forward_result_shape_witness :
  ("none" = "none" ->
   exists out,
     Mat (Tensor 2 [[Rmax 0 (1 - (2 * 0 - 1) * 3);
                     Rmax 0 (1 - (2 * 1 - 1) * -2)]]%R) = Mat out /\
     wf out /\
     nrows out = nrows (Tensor 2 [[3; -2]]%R) /\
     ncols out = ncols (Tensor 2 [[3; -2]]%R)) /\
  ("none" <> "none" ->
   (exists r,
      Mat (Tensor 2 [[Rmax 0 (1 - (2 * 0 - 1) * 3);
                      Rmax 0 (1 - (2 * 1 - 1) * -2)]]%R) = Scalar r) \/
   (Mat (Tensor 2 [[Rmax 0 (1 - (2 * 0 - 1) * 3);
                    Rmax 0 (1 - (2 * 1 - 1) * -2)]]%R) = NaN /\
    nrows (Tensor 2 [[3; -2]]%R) * ncols (Tensor 2 [[3; -2]]%R) = 0)).
Proof.
  apply (forward_result_shape CHinge
           {[ "reduction" := VStr "none"; "pad_ind" := VNone;
              "margin" := VFloat 1 ]} "none"
           (Tensor 2 [[3; -2]]%R) (Tensor 2 [[0; 1]]%R) None).
  - reflexivity.
  - repeat constructor.
  - repeat constructor.
  - discriminate.
  - reflexivity.
Defined.
